(** * Mainstay attestation service: a shallow embedding of the attestation
    client, its fee controller, the signer framing, the record server and
    the configuration parser, with the properties of its specification.

    Conventions of the embedding.
    - Go's [int] and [int64] are 64-bit two's complement integers: they are
      carried as [Z] and every arithmetic operation of the source is
      followed by [wrap_int]; [uint32] is carried as [Z] with [wrap_uint32].
    - A function of the repository that returns [(value, error)] returns a
      tuple whose last component is [option error] ([None] is [nil]); a
      pointer that may be nil is an [option].
    - A run-time panic (index or slice out of range, nil dereference) is the
      outcome [Panics]; a recursion that is cut by its fuel is [OutOfFuel].
    - Libraries that are not part of the repository (the bitcoin RPC client,
      chainhash, wire, hex) and the repository's own [crypto] and [models]
      packages, whose sources are not among the files verified here, appear
      as interfaces (type classes and records of functions). *)

From Stdlib Require Import ZArith NArith List String Ascii Lia Bool.
From Stdlib Require Import Init.Byte.
From Stdlib Require Import Floats.
From stdpp Require Import base list strings gmap.
Import ListNotations.
Local Open Scope Z_scope.
Set Warnings "-inexact-float".

(* ===================================================================== *)
(** * Part I: the embedding                                               *)
(* ===================================================================== *)

(** ** Machine integers *)

Definition int_min : Z := - 2 ^ 63.
Definition int_max : Z := 2 ^ 63 - 1.

(** Two's complement wrap-around of a 64-bit signed result. *)
Definition wrap_int (z : Z) : Z := (z + 2 ^ 63) mod 2 ^ 64 - 2 ^ 63.

(** Wrap-around of a 32-bit unsigned result. *)
Definition wrap_uint32 (z : Z) : Z := z mod 2 ^ 32.

Definition in_int_range (z : Z) : Prop := int_min <= z <= int_max.

(** ** Outcomes of a call *)

Inductive outcome (A : Type) : Type :=
| Returns (a : A)
| Panics
| OutOfFuel.
Arguments Returns {A} a.
Arguments Panics {A}.
Arguments OutOfFuel {A}.

(** Go's [error] values are carried by their message. *)
Definition error : Type := string.

(** ** Fee controller (package attestation, [AttestFees]; source in
    src/models/attestation_test.go) *)

Definition DefaultMinFee : Z := 10.
Definition DefaultMaxFee : Z := 100.
Definition DefaultFeeIncrement : Z := 5.

Definition DefaultBestFeeType : string := "hourFee".

(** [config.FeesConfig]: three [int] fields read from the configuration. *)
Record FeesConfig : Type := mkFeesConfig {
  MinFee : Z;
  MaxFee : Z;
  FeeIncrement : Z
}.

Record AttestFees : Type := mkAttestFees {
  minFee : Z;
  maxFee : Z;
  feeIncrement : Z;
  currentFee : Z
}.

(** What one [http.Get] on the fee API yields: the request fails, the body
    does not decode, or it decodes to a map from fee type to a number.  The
    map's values are [float64] in the source and are converted by [int(fee)];
    the embedding carries the converted value. *)
Inductive ApiResponse : Type :=
| ApiRequestFailed
| ApiDecodingFailed
| ApiDecoded (respJson : string -> option Z).

Definition getFeeFromAPI (resp : ApiResponse) (feeType : string) : Z :=
  match resp with
  | ApiRequestFailed => -1
  | ApiDecodingFailed => -1
  | ApiDecoded respJson =>
      match respJson feeType with
      | Some fee => fee
      | None => -1
      end
  end.

Definition getBestFee (resp : ApiResponse) (customFeeType : list string) : Z :=
  let feeType :=
    match customFeeType with
    | t :: _ => t
    | [] => DefaultBestFeeType
    end in
  getFeeFromAPI resp feeType.

Definition GetFee (a : AttestFees) : Z := currentFee a.

Definition set_currentFee (a : AttestFees) (fee : Z) : AttestFees :=
  {| minFee := minFee a; maxFee := maxFee a;
     feeIncrement := feeIncrement a; currentFee := fee |}.

(** [ResetFee(useMinimum ...bool)]; [resp] is the answer the fee API gives
    if it is asked during this call. *)
Definition ResetFee (a : AttestFees) (useMinimum : list bool)
    (resp : ApiResponse) : AttestFees :=
  let fee :=
    match useMinimum with
    | true :: _ => minFee a
    | _ =>
        let fee := getBestFee resp [] in
        if fee <? minFee a then minFee a
        else if fee >? maxFee a then maxFee a
        else fee
    end in
  set_currentFee a fee.

Definition BumpFee (a : AttestFees) : AttestFees :=
  let a1 := set_currentFee a (wrap_int (currentFee a + feeIncrement a)) in
  if currentFee a1 >? maxFee a1 then set_currentFee a1 (maxFee a1) else a1.

Definition NewAttestFees (feesConfig : FeesConfig) (resp : ApiResponse)
    : AttestFees :=
  let minFee :=
    if (MinFee feesConfig >? 0) && (MinFee feesConfig <? DefaultMaxFee)
    then MinFee feesConfig else DefaultMinFee in
  let maxFee :=
    if (MaxFee feesConfig >? 0) && (MaxFee feesConfig >? minFee)
       && (MaxFee feesConfig <? DefaultMaxFee)
    then MaxFee feesConfig else DefaultMaxFee in
  let feeIncrement :=
    if FeeIncrement feesConfig >? 0
    then FeeIncrement feesConfig else DefaultFeeIncrement in
  let attestFees :=
    {| minFee := minFee; maxFee := maxFee;
       feeIncrement := feeIncrement; currentFee := 0 |} in
  ResetFee attestFees [] resp.

(** The calls a client of the fee controller can make after construction. *)
Inductive FeeCall : Type :=
| CallResetFee (useMinimum : list bool) (resp : ApiResponse)
| CallBumpFee.

Definition fee_call (a : AttestFees) (c : FeeCall) : AttestFees :=
  match c with
  | CallResetFee useMinimum resp => ResetFee a useMinimum resp
  | CallBumpFee => BumpFee a
  end.

Definition fee_calls (a : AttestFees) (cs : list FeeCall) : AttestFees :=
  fold_left fee_call cs a.

(** The limits set at construction; no call changes them. *)
Definition limits_ok (a : AttestFees) : Prop :=
  0 < minFee a /\ minFee a < maxFee a /\ maxFee a <= DefaultMaxFee /\
  0 < feeIncrement a.

(** The state invariant of the fee controller. *)
Definition fees_ok (a : AttestFees) : Prop :=
  0 < minFee a /\ minFee a < maxFee a /\ maxFee a <= DefaultMaxFee /\
  0 < feeIncrement a /\ minFee a <= currentFee a <= maxFee a.

(** ** Signer framing (package attestation, [AttestSignerZmq]; source in
    src/models/attestation_test.go) *)

(** [byte(n)] of a length: the low eight bits. *)
Definition byte_of_len (n : nat) : byte :=
  match Byte.of_nat (n mod 256) with
  | Some b => b
  | None => x00
  end.

(** One pass of the loop body of [SerializeBytes]. *)
Definition serialize_step (serializedBytes : list byte) (dataX : list byte)
    : list byte :=
  (serializedBytes ++ [byte_of_len (length dataX)]) ++ dataX.

Definition SerializeBytes (data : list (list byte)) : list byte :=
  if (length data =? 0)%nat then []
  else fold_left serialize_step data [].

(** The loop of [UnserializeBytes]: [it] is the read position and
    [dataList] the chunks found so far.  Every pass advances [it] by at
    least one, so [length data] passes always suffice. *)
Fixpoint unserialize_loop (fuel : nat) (data : list byte) (it : nat)
    (dataList : list (list byte)) : list (list byte) :=
  match fuel with
  | O => dataList
  | S fuel' =>
      if (it <? length data)%nat then
        match data !! it with
        | None => dataList
        | Some txSize =>
            if (length data <? Byte.to_nat txSize + 1 + it)%nat
            then dataList
            else
              let dataX :=
                take (Byte.to_nat txSize) (drop (it + 1)%nat data) in
              unserialize_loop fuel' data (it + (1 + Byte.to_nat txSize))%nat
                (dataList ++ [dataX])
        end
      else dataList
  end.

Definition UnserializeBytes (data : list byte) : list (list byte) :=
  if (length data =? 0)%nat then []
  else unserialize_loop (length data) data 0%nat [].

(** A chunk with its length byte in front. *)
Definition frame (dataX : list byte) : list byte :=
  byte_of_len (length dataX) :: dataX.

(** ** Go slices *)

(** A slice is the elements below its length together with the cells of its
    backing array between length and capacity. *)
Record slice (A : Type) : Type := mkSlice {
  elems : list A;
  spare : list A
}.
Arguments mkSlice {A} elems spare.
Arguments elems {A} s.
Arguments spare {A} s.

Definition slice_len {A} (s : slice A) : nat := length (elems s).
Definition slice_cap {A} (s : slice A) : nat :=
  (length (elems s) + length (spare s))%nat.

(** [append(s, xs...)]: in place while the capacity suffices; otherwise the
    elements move to a fresh zeroed array, which the runtime may make larger
    than needed by [grow] cells. *)
Definition slice_append {A} (zero : A) (grow : nat -> nat -> nat)
    (s : slice A) (xs : list A) : slice A :=
  if (length xs <=? length (spare s))%nat
  then mkSlice (elems s ++ xs) (drop (length xs) (spare s))
  else mkSlice (elems s ++ xs)
         (replicate (grow (slice_cap s) (slice_len s + length xs)%nat) zero).

(** [s[:n]]: a run-time panic unless [0 <= n <= cap(s)]. *)
Definition slice_upto {A} (s : slice A) (n : Z) : outcome (list A) :=
  if (n <? 0) || (Z.of_nat (slice_cap s) <? n) then Panics
  else Returns (take (Z.to_nat n) (elems s ++ spare s)).

(** [xs[:n]] on a slice of which only the elements are known, used where the
    source has checked [len(xs) >= n]. *)
Definition list_upto {A} (xs : list A) (n : Z) : outcome (list A) :=
  if (n <? 0) then Panics else Returns (take (Z.to_nat n) xs).

(** ** Floating point conversions *)

(** The integer part of a finite [float64], [None] for NaN and infinities. *)
Definition float_trunc (f : float) : option Z :=
  match Prim2SF f with
  | S754_zero _ => Some 0
  | S754_finite s m e =>
      let a := if 0 <=? e then Z.pos m * 2 ^ e else Z.pos m / 2 ^ (- e) in
      Some (if s then - a else a)
  | S754_infinity _ => None
  | S754_nan => None
  end.

(** [int64(f)]: the fraction is discarded; a value outside the range gives
    the most negative integer (the conversion instruction of amd64). *)
Definition int64_of_float (f : float) : Z :=
  match float_trunc f with
  | Some z => if (int_min <=? z) && (z <=? int_max) then z else int_min
  | None => int_min
  end.

(** [uint32(f)]: the low 32 bits of [int64(f)] (amd64). *)
Definition uint32_of_float (f : float) : Z :=
  wrap_uint32 (int64_of_float f).

(** [math.Pow(2, float64(32))]. *)
Definition math_Pow_2_32 : float := 4294967296%float.

(** ** Chain hashes and wire transactions (btcd) *)

(** [chainhash.Hash] is an array of 32 bytes. *)
Definition Hash : Type := list byte.
Definition HashSize : nat := 32.
Definition zeroHash : Hash := replicate HashSize x00.
#[global] Instance byte_eq_dec : EqDecision byte := Byte.byte_eq_dec.

Definition Hash_IsEqual (h1 h2 : Hash) : bool :=
  bool_decide (@eq (list byte) h1 h2).
Definition Hash_CloneBytes (h : Hash) : list byte := h.

Record wire_OutPoint : Type := mkOutPoint {
  OutPoint_Hash : Hash;
  OutPoint_Index : Z
}.

Record wire_TxIn : Type := mkTxIn {
  PreviousOutPoint : wire_OutPoint;
  SignatureScript : list byte;
  Sequence : Z
}.

Record wire_TxOut : Type := mkTxOut {
  Value : Z;
  PkScript : list byte
}.

Record wire_MsgTx : Type := mkMsgTx {
  Version : Z;
  TxIn : list wire_TxIn;
  TxOut : list wire_TxOut;
  LockTime : Z
}.

Definition set_TxIn (tx : wire_MsgTx) (ins : list wire_TxIn) : wire_MsgTx :=
  mkMsgTx (Version tx) ins (TxOut tx) (LockTime tx).
Definition set_TxOut (tx : wire_MsgTx) (outs : list wire_TxOut)
    : wire_MsgTx :=
  mkMsgTx (Version tx) (TxIn tx) outs (LockTime tx).
Definition set_Sequence (i : wire_TxIn) (s : Z) : wire_TxIn :=
  mkTxIn (PreviousOutPoint i) (SignatureScript i) s.
Definition set_SignatureScript (i : wire_TxIn) (s : list byte) : wire_TxIn :=
  mkTxIn (PreviousOutPoint i) s (Sequence i).
Definition set_Value (o : wire_TxOut) (v : Z) : wire_TxOut :=
  mkTxOut v (PkScript o).

(** ** btcjson *)

Record TransactionInput : Type := mkTransactionInput {
  Txid : string;
  TransactionInput_Vout : Z
}.

Record ListUnspentResult : Type := mkListUnspentResult {
  TxID : string;
  Vout : Z;
  Amount : float
}.

(** The zero value [btcjson.ListUnspentResult{}]. *)
Definition emptyListUnspentResult : ListUnspentResult :=
  mkListUnspentResult "" 0 0%float.

Record RawTxInput : Type := mkRawTxInput {
  RawTxInput_Txid : string;
  RawTxInput_Vout : Z;
  ScriptPubKey : string;
  RedeemScript : string
}.

(** A library call that returns [(value, error)]. *)
Inductive result (A : Type) : Type :=
| Ok (a : A)
| Err (e : error).
Arguments Ok {A} a.
Arguments Err {A} e.

(** A signature ([crypto.Sig]) is a byte slice; its zero value is nil. *)
Definition Sig : Type := list byte.
Definition nilSig : Sig := [].

(** The types and functions of btcd, btcutil and encoding/hex that the
    client uses, and the growth policy of the Go runtime's [append]. *)
Class BtcLib : Type := {
  Address : Type;
  Params : Type;
  PublicKey : Type;
  WIF : Type;
  WIF_String : WIF -> string;
  Hash_String : Hash -> string;
  NewHashFromStr : string -> result Hash;
  hex_EncodeToString : list byte -> string;
  hex_DecodeString : string -> list byte;
  SerializeSize : wire_MsgTx -> Z;
  growslice : nat -> nat -> nat
}.

(** The repository's [crypto] package.  A key argument is a pointer in the
    source, hence [option]; what the package does on a nil key or on a
    failed tweak is part of its outcome. *)
Class Crypto `{BtcLib} : Type := {
  TweakPrivKey : option WIF -> list byte -> Params -> outcome (result WIF);
  TweakPubKey : PublicKey -> list byte -> PublicKey;
  CreateMultisig : list PublicKey -> Z -> Params -> Address * string;
  GetAddressFromPrivKey : option WIF -> Params -> outcome (result Address);
  ParseScriptSig : list byte -> slice Sig * list byte;
  CreateScriptSig : list Sig -> list byte -> list byte
}.

(** Sequencing of calls that may panic. *)
Definition outcome_bind {A B} (m : outcome A) (k : A -> outcome B)
    : outcome B :=
  match m with
  | Returns a => k a
  | Panics => Panics
  | OutOfFuel => OutOfFuel
  end.

Notation "'let!' x := m 'in' k" := (outcome_bind m (fun x => k))
  (at level 10, x name, m at level 100, k at level 200).

(** ** Attestation client (package attestation, [AttestClient]; source in
    src/models/attestation_test.go) *)

Section Client.
Context `{crypto : Crypto}.

(** The calls of [rpcclient.Client] that the client makes, as answered by
    the bitcoin node during one operation of the client.  The lock time
    argument of [CreateRawTransaction], always nil in the source, is left
    out. *)
Record RpcClient : Type := mkRpcClient {
  CreateRawTransaction :
    list TransactionInput -> list (Address * Z) -> result wire_MsgTx;
  GetRawTransaction : Hash -> result wire_MsgTx;
  SignRawTransaction3 :
    wire_MsgTx -> list RawTxInput -> list string -> result (wire_MsgTx * bool);
  ListUnspent : result (list ListUnspentResult)
}.

Record AttestClient : Type := mkAttestClient {
  MainClient : RpcClient;
  MainChainCfg : Params;
  Fees : AttestFees;
  txid0 : string;
  script0 : string;
  pubkeys : list PublicKey;
  numOfSigs : Z;
  WalletPriv : option WIF
}.

Definition set_Fees (w : AttestClient) (f : AttestFees) : AttestClient :=
  mkAttestClient (MainClient w) (MainChainCfg w) f (txid0 w) (script0 w)
    (pubkeys w) (numOfSigs w) (WalletPriv w).

(** [btcutil.Amount(txunspent.Amount * 100000000)]. *)
Definition unspent_amount (txunspent : ListUnspentResult) : Z :=
  int64_of_float (PrimFloat.mul (Amount txunspent) 100000000%float).

(** [uint32(math.Pow(2, float64(32))) - 3]. *)
Definition rbf_sequence : Z :=
  wrap_uint32 (uint32_of_float math_Pow_2_32 - 3).

Definition GetNextAttestationAddr (w : AttestClient) (key : option WIF)
    (hash : Hash) : outcome (option Address * string) :=
  if (0 <? length (pubkeys w))%nat then
    let hashBytes := Hash_CloneBytes hash in
    let tweakedPubs :=
      map (fun pub => TweakPubKey pub hashBytes) (pubkeys w) in
    let '(multisigAddr, redeemScript) :=
      CreateMultisig tweakedPubs (numOfSigs w) (MainChainCfg w) in
    Returns (Some multisigAddr, redeemScript)
  else
    let! r := GetAddressFromPrivKey key (MainChainCfg w) in
    match r with
    | Ok myAddr => Returns (Some myAddr, "")
    | Err _ => Returns (None, "")
    end.

Definition createAttestation (w : AttestClient) (paytoaddr : Address)
    (txunspent : ListUnspentResult)
    : outcome (option wire_MsgTx * option error) :=
  let inputs := [mkTransactionInput (TxID txunspent) (Vout txunspent)] in
  let amounts := [(paytoaddr, unspent_amount txunspent)] in
  match CreateRawTransaction (MainClient w) inputs amounts with
  | Err errCreate => Returns (None, Some errCreate)
  | Ok msgtx =>
      match TxIn msgtx with
      | [] => Panics
      | txin0 :: ins =>
          let msgtx :=
            set_TxIn msgtx (set_Sequence txin0 rbf_sequence :: ins) in
          let feePerByte := GetFee (Fees w) in
          let fee := wrap_int (feePerByte * SerializeSize msgtx) in
          match TxOut msgtx with
          | [] => Panics
          | txout0 :: outs =>
              Returns
                (Some (set_TxOut msgtx
                         (set_Value txout0 (wrap_int (Value txout0 - fee))
                            :: outs)),
                 None)
          end
      end
  end.

(** The fee controller and the transaction are updated in place in the
    source; the updated client and transaction are returned here. *)
Definition bumpAttestationFees (w : AttestClient) (msgtx : wire_MsgTx)
    : outcome (AttestClient * wire_MsgTx * option error) :=
  match TxIn msgtx with
  | [] => Panics
  | txin0 :: ins =>
      let msgtx := set_TxIn msgtx (set_SignatureScript txin0 [] :: ins) in
      let prevFeePerByte := GetFee (Fees w) in
      let w := set_Fees w (BumpFee (Fees w)) in
      let feePerByteIncrement := wrap_int (GetFee (Fees w) - prevFeePerByte) in
      let feeIncrement :=
        wrap_int (feePerByteIncrement * SerializeSize msgtx) in
      match TxOut msgtx with
      | [] => Panics
      | txout0 :: outs =>
          Returns
            (w,
             set_TxOut msgtx
               (set_Value txout0 (wrap_int (Value txout0 - feeIncrement))
                  :: outs),
             None)
      end
  end.

Definition GetKeyFromHash (w : AttestClient) (hash : Hash) : outcome WIF :=
  if negb (Hash_IsEqual hash zeroHash) then
    let! r :=
      TweakPrivKey (WalletPriv w) (Hash_CloneBytes hash) (MainChainCfg w) in
    match r with
    | Ok tweakedKey => Returns tweakedKey
    | Err _ => Panics
    end
  else
    match WalletPriv w with
    | Some key => Returns key
    | None => Panics
    end.

Definition GetScriptFromHash (w : AttestClient) (hash : Hash)
    : outcome string :=
  if negb (Hash_IsEqual hash zeroHash) then
    let! r := GetNextAttestationAddr w (WalletPriv w) hash in
    Returns (snd r)
  else Returns (script0 w).

Definition SignTransaction (w : AttestClient) (hash : Hash)
    (msgTx : wire_MsgTx)
    : outcome (option wire_MsgTx * string * option error) :=
  let! key := GetKeyFromHash w hash in
  let! redeemScript := GetScriptFromHash w hash in
  match TxIn msgTx with
  | [] => Panics
  | txin0 :: _ =>
      let prevTxId := OutPoint_Hash (PreviousOutPoint txin0) in
      match GetRawTransaction (MainClient w) prevTxId with
      | Err errRaw => Returns (None, "", Some errRaw)
      | Ok prevTx =>
          match TxOut prevTx with
          | [] => Panics
          | prevOut0 :: _ =>
              let rawTxInput :=
                mkRawTxInput (Hash_String prevTxId) 0
                  (hex_EncodeToString (PkScript prevOut0)) redeemScript in
              match SignRawTransaction3 (MainClient w) msgTx [rawTxInput]
                      [WIF_String key] with
              | Err errSign => Returns (None, "", Some errSign)
              | Ok (signedMsgTx, _) =>
                  Returns (Some signedMsgTx, redeemScript, None)
              end
          end
      end
  end.

(** The second half of [signAttestation]: the multisig case combines the
    signatures into a new scriptSig. *)
Definition combine_sigs (w : AttestClient) (signedMsgTx : wire_MsgTx)
    (redeemScript : string) (sigs : list Sig)
    : outcome (option wire_MsgTx * option error) :=
  if negb (String.eqb redeemScript "") then
    match TxIn signedMsgTx with
    | [] => Panics
    | txin0 :: ins =>
        let '(mySigs, script) := ParseScriptSig (SignatureScript txin0) in
        if (0 <? slice_len mySigs)%nat && (0 <? length script)%nat
           && String.eqb (hex_EncodeToString script) redeemScript
        then
          let combinedSigs := slice_append nilSig growslice mySigs sigs in
          let! chosen := slice_upto combinedSigs (numOfSigs w) in
          let combinedScriptSig := CreateScriptSig chosen script in
          Returns
            (Some (set_TxIn signedMsgTx
                     (set_SignatureScript txin0 combinedScriptSig :: ins)),
             None)
        else if numOfSigs w <=? Z.of_nat (length sigs) then
          let redeemScriptBytes := hex_DecodeString redeemScript in
          let! chosen := list_upto sigs (numOfSigs w) in
          let combinedScriptSig := CreateScriptSig chosen redeemScriptBytes in
          Returns
            (Some (set_TxIn signedMsgTx
                     (set_SignatureScript txin0 combinedScriptSig :: ins)),
             None)
        else Returns (Some signedMsgTx, None)
    end
  else Returns (Some signedMsgTx, None).

Definition signAttestation (w : AttestClient) (msgtx : wire_MsgTx)
    (sigs : list Sig) (hash : Hash)
    : outcome (option wire_MsgTx * option error) :=
  let! redeemScript := GetScriptFromHash w hash in
  match WalletPriv w with
  | Some _ =>
      let! r := SignTransaction w hash msgtx in
      match r with
      | (_, _, Some errSign) => Returns (None, Some errSign)
      | (Some signedMsgTx, redeemScript, None) =>
          combine_sigs w signedMsgTx redeemScript sigs
      | (None, _, None) => Panics
      end
  | None => combine_sigs w msgtx redeemScript sigs
  end.

(** The recursion of [verifyTxOnSubchain] has no bound in the source; [fuel]
    bounds the number of transactions visited. *)
Fixpoint verifyTxOnSubchain (fuel : nat) (w : AttestClient) (txid : Hash)
    : outcome bool :=
  match fuel with
  | O => OutOfFuel
  | S fuel' =>
      if String.eqb (Hash_String txid) (txid0 w) then Returns true
      else
        match GetRawTransaction (MainClient w) txid with
        | Err _ => Returns false
        | Ok txraw =>
            match TxIn txraw with
            | [] => Panics
            | txin0 :: _ =>
                verifyTxOnSubchain fuel' w
                  (OutPoint_Hash (PreviousOutPoint txin0))
            end
        end
  end.

(** The loop of [findLastUnspent] over the listed outputs. *)
Fixpoint findLastUnspent_loop (fuel : nat) (w : AttestClient)
    (unspent : list ListUnspentResult)
    : outcome (bool * ListUnspentResult * option error) :=
  match unspent with
  | [] => Returns (false, emptyListUnspentResult, None)
  | vout :: rest =>
      match NewHashFromStr (TxID vout) with
      | Err _ => Panics
      | Ok txhash =>
          let! onchain := verifyTxOnSubchain fuel w txhash in
          if (onchain : bool) then Returns (true, vout, None)
          else findLastUnspent_loop fuel w rest
      end
  end.

Definition findLastUnspent (fuel : nat) (w : AttestClient)
    : outcome (bool * ListUnspentResult * option error) :=
  match ListUnspent (MainClient w) with
  | Err err => Returns (false, emptyListUnspentResult, Some err)
  | Ok unspent =>
      if (0 <? length unspent)%nat then findLastUnspent_loop fuel w unspent
      else Returns (false, emptyListUnspentResult, None)
  end.


(** The transaction with the scriptSig of its first input replaced. *)
Definition with_scriptSig (tx : wire_MsgTx) (txin0 : wire_TxIn)
    (ins : list wire_TxIn) (scriptSig : list byte) : wire_MsgTx :=
  set_TxIn tx (set_SignatureScript txin0 scriptSig :: ins).

(** The test of [signAttestation] for a usable local signature. *)
Definition has_local_sigs (mySigs : slice Sig) (script : list byte)
    (redeemScript : string) : bool :=
  (0 <? slice_len mySigs)%nat && (0 <? length script)%nat
  && String.eqb (hex_EncodeToString script) redeemScript.

End Client.

(** ** Record server (package server; source in src/config/jsonparser.go) *)

(** [models.ClientCommitment]: the latest commitment a client has stored.
    Its declaration is outside the files verified here; the position is
    carried as an integer without a width. *)
Record ClientCommitment : Type := mkClientCommitment {
  Commitment : Hash;
  ClientPosition : Z
}.

(** The repository's [models] package: the commitment type with its zero
    value [models.Commitment{}] and its constructor. *)
Class Models : Type := {
  models_Commitment : Type;
  emptyCommitment : models_Commitment;
  NewCommitment : list Hash -> result models_Commitment
}.

(** The methods of the [Db] interface that the server calls, as answered by
    the record store. *)
Record Db : Type := mkDb {
  getLatestAttestationMerkleRoot : bool -> string * option error;
  getClientCommitments : list ClientCommitment * option error
}.

Record Server : Type := mkServer {
  dbInterface : Db
}.

(** [make([]chainhash.Hash, n)]. *)
Definition make_hashes (n : Z) : outcome (list Hash) :=
  if n <? 0 then Panics else Returns (replicate (Z.to_nat n) zeroHash).

(** [hashes[i] = h]: a run-time panic when [i] is out of range. *)
Definition hashes_set (hashes : list Hash) (i : Z) (h : Hash)
    : outcome (list Hash) :=
  if (i <? 0) || (Z.of_nat (length hashes) <=? i) then Panics
  else Returns (<[Z.to_nat i := h]> hashes).

(** The loop that sets the commitments in their positions. *)
Fixpoint set_commitments (commitmentHashes : list Hash)
    (latestCommitments : list ClientCommitment) : outcome (list Hash) :=
  match latestCommitments with
  | [] => Returns commitmentHashes
  | c :: rest =>
      let! commitmentHashes :=
        hashes_set commitmentHashes (ClientPosition c) (Commitment c) in
      set_commitments commitmentHashes rest
  end.

(** The leaf list that [GetClientCommitment] hands to [NewCommitment]. *)
Definition client_commitment_hashes
    (latestCommitments : list ClientCommitment) : outcome (list Hash) :=
  match last latestCommitments with
  | Some lastCommitment =>
      let! commitmentHashes :=
        make_hashes (ClientPosition lastCommitment + 1) in
      set_commitments commitmentHashes latestCommitments
  | None => Returns []
  end.

Section Server.
Context `{lib : BtcLib} `{models : Models}.

Definition GetLatestAttestationCommitmentHash (s : Server)
    (confirmed : list bool) : Hash * option error :=
  let confirmedParam :=
    match confirmed with
    | c :: _ => c
    | [] => true
    end in
  let '(merkleRoot, rootErr) :=
    getLatestAttestationMerkleRoot (dbInterface s) confirmedParam in
  match rootErr with
  | Some rootErr => (zeroHash, Some rootErr)
  | None =>
      if String.eqb merkleRoot "" then (zeroHash, None)
      else
        match NewHashFromStr merkleRoot with
        | Err errHash => (zeroHash, Some errHash)
        | Ok commitmentHash => (commitmentHash, None)
        end
  end.

Definition GetClientCommitment (s : Server)
    : outcome (models_Commitment * option error) :=
  let '(latestCommitments, errLatest) :=
    getClientCommitments (dbInterface s) in
  match errLatest with
  | Some errLatest => Returns (emptyCommitment, Some errLatest)
  | None =>
      let! commitmentHashes := client_commitment_hashes latestCommitments in
      match NewCommitment commitmentHashes with
      | Err errCommitment => Returns (emptyCommitment, Some errCommitment)
      | Ok commitment => Returns (commitment, None)
      end
  end.

(** What [GetClientCommitment] returns once the leaf list is built. *)
Definition commitment_of_hashes (commitmentHashes : list Hash)
    : models_Commitment * option error :=
  match NewCommitment commitmentHashes with
  | Err errCommitment => (emptyCommitment, Some errCommitment)
  | Ok commitment => (commitment, None)
  end.

End Server.

(** ** Reference instances of the interfaces

    A small executable instance of each interface, used to evaluate the
    client and the server on concrete inputs: hexadecimal strings as
    encoding/hex and chainhash print them, script signatures framed as
    pushes of at most 75 bytes after a leading OP_0, and keys taken in the
    additive group of integers modulo the order of secp256k1. *)

Definition hex_digit (n : N) : ascii :=
  nth (N.to_nat n) (list_ascii_of_string "0123456789abcdef") "0"%char.

Definition ref_hex_EncodeToString (bs : list byte) : string :=
  string_of_list_ascii
    (flat_map (fun b => let n := Byte.to_N b in
                        [hex_digit (n / 16); hex_digit (n mod 16)]) bs).

Definition hex_value (c : ascii) : option N :=
  let n := N_of_ascii c in
  if ((48 <=? n) && (n <=? 57))%N then Some (n - 48)%N
  else if ((97 <=? n) && (n <=? 102))%N then Some (n - 87)%N
  else if ((65 <=? n) && (n <=? 70))%N then Some (n - 55)%N
  else None.

(** The bytes decoded before the first error, and whether all decoded. *)
Fixpoint hex_decode (cs : list ascii) : list byte * bool :=
  match cs with
  | [] => ([], true)
  | c1 :: c2 :: rest =>
      match hex_value c1, hex_value c2 with
      | Some a, Some b =>
          match Byte.of_N (16 * a + b) with
          | Some x => let '(bs, ok) := hex_decode rest in (x :: bs, ok)
          | None => ([], false)
          end
      | _, _ => ([], false)
      end
  | _ :: [] => ([], false)
  end.

Definition ref_hex_DecodeString (s : string) : list byte :=
  fst (hex_decode (list_ascii_of_string s)).

Definition ref_Hash_String (h : Hash) : string :=
  ref_hex_EncodeToString (rev h).

Definition ref_NewHashFromStr (s : string) : result Hash :=
  let '(bs, ok) := hex_decode (list_ascii_of_string s) in
  if ok && (length bs =? HashSize)%nat then Ok (rev bs)
  else Err "invalid hash string".

(** The serialized size of a transaction without witness data whose counts
    and script lengths fit one-byte varints. *)
Definition ref_SerializeSize (tx : wire_MsgTx) : Z :=
  10
  + fold_right (fun i n => 41 + Z.of_nat (length (SignatureScript i)) + n)
      0 (TxIn tx)
  + fold_right (fun o n => 9 + Z.of_nat (length (PkScript o)) + n)
      0 (TxOut tx).

Definition secp256k1_N : Z :=
  0xFFFFFFFFFFFFFFFFFFFFFFFFFFFFFFFEBAAEDCE6AF48A03BBFD25E8CD0364141.

(** A byte string read as a big-endian number. *)
Definition bytes_to_Z (bs : list byte) : Z :=
  fold_left (fun n b => 256 * n + Z.of_N (Byte.to_N b)) bs 0.

Definition key_byte (k : Z) : byte := byte_of_len (Z.to_nat (k mod 256)).

Definition ref_BtcLib : BtcLib := {|
  Address := string;
  Params := unit;
  PublicKey := Z;
  WIF := Z;
  WIF_String := fun k => ref_hex_EncodeToString [key_byte k];
  Hash_String := ref_Hash_String;
  NewHashFromStr := ref_NewHashFromStr;
  hex_EncodeToString := ref_hex_EncodeToString;
  hex_DecodeString := ref_hex_DecodeString;
  SerializeSize := ref_SerializeSize;
  growslice := fun _ _ => 0%nat
|}.

(** Modelled from the spec: the redeem script that [crypto.CreateMultisig]
    builds, OP_m, the keys in their order, OP_n, OP_CHECKMULTISIG. *)
Definition ref_redeem_script (pubs : list Z) (nSigs : Z) : list byte :=
  [byte_of_len (Z.to_nat (80 + nSigs))]
  ++ flat_map (fun p => [x01; key_byte p]) pubs
  ++ [byte_of_len (80 + length pubs); xae].

(** Modelled from the spec: [crypto.ParseScriptSig] consumes the leading
    OP_0 push and returns the signatures and the redeem script of an M-of-N
    spend; an empty scriptSig gives nothing.  The signature slice is as long
    as its backing array. *)
Definition ref_ParseScriptSig (scriptSig : list byte)
    : slice Sig * list byte :=
  match scriptSig with
  | [] => (mkSlice [] [], [])
  | _ :: pushes =>
      let chunks := UnserializeBytes pushes in
      (mkSlice (removelast chunks) [], List.last chunks [])
  end.

(** Modelled from the spec: [crypto.CreateScriptSig] serializes the
    signatures and the redeem script after the required leading OP_0. *)
Definition ref_CreateScriptSig (sigs : list Sig) (script : list byte)
    : list byte :=
  x00 :: SerializeBytes (sigs ++ [script]).

(** Modelled from the spec: [crypto.TweakPrivKey] gives
    (priv + tweak) mod n and fails if the result is zero. *)
Definition ref_TweakPrivKey (key : option Z) (tweak : list byte)
    (chainCfg : unit) : outcome (result Z) :=
  match key with
  | None => Panics
  | Some k =>
      let k' := (k + bytes_to_Z tweak) mod secp256k1_N in
      if k' =? 0 then Returns (Err "invalid tweaked key")
      else Returns (Ok k')
  end.

(** Modelled from the spec: [crypto.TweakPubKey] gives pub + tweak * G;
    in the reference group the generator is 1 and the public key of a
    private key is the key itself. *)
Definition ref_TweakPubKey (p : Z) (tweak : list byte) : Z :=
  (p + bytes_to_Z tweak) mod secp256k1_N.

(** Modelled from the spec: [crypto.CreateMultisig] returns the P2SH
    address and the redeem script, pubkey order preserved. *)
Definition ref_CreateMultisig (pubs : list Z) (nSigs : Z) (chainCfg : unit)
    : string * string :=
  let script := ref_hex_EncodeToString (ref_redeem_script pubs nSigs) in
  (String.append "p2sh:" script, script).

(** Modelled from the spec: [crypto.GetAddressFromPrivKey] is the P2PKH
    address of the key's public key. *)
Definition ref_GetAddressFromPrivKey (key : option Z) (chainCfg : unit)
    : outcome (result string) :=
  match key with
  | None => Panics
  | Some k =>
      Returns (Ok (String.append "p2pkh:"
                     (ref_hex_EncodeToString [key_byte k])))
  end.

Definition ref_Crypto : @Crypto ref_BtcLib :=
  @Build_Crypto ref_BtcLib ref_TweakPrivKey ref_TweakPubKey
    ref_CreateMultisig ref_GetAddressFromPrivKey ref_ParseScriptSig
    ref_CreateScriptSig.

(** Modelled from the spec: [models.NewCommitment] rejects the empty list
    and otherwise holds the positional leaves. *)
Definition ref_Models : Models := {|
  models_Commitment := list Hash;
  emptyCommitment := [];
  NewCommitment := fun hashes =>
    match hashes with
    | [] => Err "List of commitments is empty"
    | _ => Ok hashes
    end
|}.


(** A reference node: it knows the transactions of [chain], lists the
    outputs [unspent], builds raw transactions as [createrawtransaction]
    does (version 2, final sequence, no lock time) and signs the first
    input with the first key it is given. *)
Definition ref_GetRawTransaction (chain : list (Hash * wire_MsgTx))
    (txid : Hash) : result wire_MsgTx :=
  match find (fun entry => Hash_IsEqual (fst entry) txid) chain with
  | Some entry => Ok (snd entry)
  | None => Err "No information available about transaction"
  end.

Fixpoint ref_raw_inputs (inputs : list TransactionInput)
    : result (list wire_TxIn) :=
  match inputs with
  | [] => Ok []
  | input :: rest =>
      match ref_NewHashFromStr (Txid input), ref_raw_inputs rest with
      | Ok h, Ok ins =>
          Ok (mkTxIn (mkOutPoint h (TransactionInput_Vout input)) []
                0xFFFFFFFF :: ins)
      | Err e, _ => Err e
      | _, Err e => Err e
      end
  end.

Definition ref_CreateRawTransaction (inputs : list TransactionInput)
    (amounts : list (string * Z)) : result wire_MsgTx :=
  match ref_raw_inputs inputs with
  | Ok ins =>
      Ok (mkMsgTx 2 ins
            (map (fun '(addr, amount) =>
                    mkTxOut amount (String.list_byte_of_string addr))
               amounts)
            0)
  | Err e => Err e
  end.

(** A stand-in signature of a transaction input under a key. *)
Definition ref_signature (key : string) : Sig :=
  x30 :: String.list_byte_of_string key ++ [x01].

Definition ref_SignRawTransaction3 (tx : wire_MsgTx)
    (inputs : list RawTxInput) (privKeysWIF : list string)
    : result (wire_MsgTx * bool) :=
  match TxIn tx, inputs, privKeysWIF with
  | txin0 :: ins, input :: _, key :: _ =>
      let scriptSig :=
        if String.eqb (RedeemScript input) ""
        then SerializeBytes [ref_signature key; String.list_byte_of_string key]
        else ref_CreateScriptSig [ref_signature key]
               (ref_hex_DecodeString (RedeemScript input)) in
      Ok (set_TxIn tx (set_SignatureScript txin0 scriptSig :: ins), false)
  | _, _, _ => Err "nothing to sign"
  end.

Definition ref_node (chain : list (Hash * wire_MsgTx))
    (unspent : list ListUnspentResult) : @RpcClient ref_BtcLib :=
  @mkRpcClient ref_BtcLib ref_CreateRawTransaction
    (ref_GetRawTransaction chain) ref_SignRawTransaction3 (Ok unspent).

(** ** Example data *)

Definition example_txid0 : Hash := replicate 31 x00 ++ [xa0].
Definition example_txid1 : Hash := replicate 31 x00 ++ [xa1].
Definition example_txid2 : Hash := replicate 31 x00 ++ [xa2].
Definition example_hash : Hash := replicate 31 x00 ++ [x07].

Definition example_tx (prev : Hash) (value : Z) : wire_MsgTx :=
  mkMsgTx 2 [mkTxIn (mkOutPoint prev 0) [] 0xFFFFFFFD]
    [mkTxOut value [xa9; x14; x87]] 0.

(** Genesis, spent by a first attestation, spent by a second one. *)
Definition example_chain : list (Hash * wire_MsgTx) :=
  [(example_txid0, example_tx zeroHash 29000000);
   (example_txid1, example_tx example_txid0 28999000);
   (example_txid2, example_tx example_txid1 28998000)].

Definition example_fees : AttestFees := mkAttestFees 10 100 5 10.

Definition example_commitments : list ClientCommitment :=
  [mkClientCommitment (replicate 32 x1a) 0;
   mkClientCommitment (replicate 32 x3a) 2].

(** A signing client of a 2-of-3 multisig and one that does not sign. *)
Definition example_client (priv : option Z)
    (unspent : list ListUnspentResult) : @AttestClient ref_BtcLib :=
  @mkAttestClient ref_BtcLib (ref_node example_chain unspent) tt example_fees
    (ref_Hash_String example_txid0)
    (ref_hex_EncodeToString (ref_redeem_script [5; 6; 7] 2))
    [5; 6; 7] 2 priv.

(** A client without a multisig script: it signs with its own key. *)
Definition example_single_key_client : @AttestClient ref_BtcLib :=
  @mkAttestClient ref_BtcLib (ref_node example_chain []) tt example_fees
    (ref_Hash_String example_txid0) "" [] 1 (Some 5).

(** A partially signed attestation spending the second example
    transaction. *)
Definition example_input : wire_TxIn :=
  mkTxIn (mkOutPoint example_txid2 0) [x00; x01; x30] 0xFFFFFFFD.
Definition example_output : wire_TxOut := mkTxOut 28997000 [xa9; x14; x87].

(** The same attestation before any signature. *)
Definition example_unsigned : wire_MsgTx :=
  mkMsgTx 2 [set_SignatureScript example_input []] [example_output] 0.

(** ** The subchain walk, as the specification words it *)

Section SubchainWalk.
Context `{lib : BtcLib}.

(** The txid reached from [txid] by [n] times replacing it by the
    previous-outpoint txid of the first input of its transaction; [None]
    when a transaction on the way cannot be fetched or has no input. *)
Fixpoint walk_back (n : nat) (w : AttestClient) (txid : Hash)
    : option Hash :=
  match n with
  | O => Some txid
  | S n' =>
      match GetRawTransaction (MainClient w) txid with
      | Ok txraw =>
          match TxIn txraw with
          | txin0 :: _ =>
              walk_back n' w (OutPoint_Hash (PreviousOutPoint txin0))
          | [] => None
          end
      | Err _ => None
      end
  end.

Definition is_genesis (w : AttestClient) (txid : Hash) : Prop :=
  Hash_String txid = txid0 w.

(** The walk from [txid] reaches the genesis txid. *)
Definition reaches_genesis (w : AttestClient) (txid : Hash) : Prop :=
  exists n g, walk_back n w txid = Some g /\ is_genesis w g.

(** The walk from [txid] comes, before any genesis txid, to a transaction
    whose fetch fails. *)
Definition walk_fails (w : AttestClient) (txid : Hash) : Prop :=
  exists n t e,
    walk_back n w txid = Some t /\
    GetRawTransaction (MainClient w) t = Err e /\
    forall k t', (k <= n)%nat -> walk_back k w txid = Some t' ->
                 ~ is_genesis w t'.

Definition on_subchain (w : AttestClient) (vout : ListUnspentResult)
    : Prop :=
  exists txhash,
    NewHashFromStr (TxID vout) = Ok txhash /\ reaches_genesis w txhash.

Definition off_subchain (w : AttestClient) (vout : ListUnspentResult)
    : Prop :=
  exists txhash,
    NewHashFromStr (TxID vout) = Ok txhash /\ walk_fails w txhash.

End SubchainWalk.

(** Two listed outputs: one of a transaction the node does not know, one of
    the second example attestation. *)
Definition example_stray_unspent : ListUnspentResult :=
  mkListUnspentResult (ref_Hash_String example_hash) 0 1%float.
Definition example_tip_unspent : ListUnspentResult :=
  mkListUnspentResult (ref_Hash_String example_txid2) 0 0.29%float.

(** What [UnserializeBytes] leaves unread: nothing, or a length byte that
    announces more bytes than follow it. *)
Definition truncated_frame (rest : list byte) : Prop :=
  rest = [] \/
  exists txSize tail,
    rest = txSize :: tail /\ (length tail < Byte.to_nat txSize)%nat.

(** ** Signatures from the subscribers' messages (package attestation,
    [getSigsFromMsgs], [updateNumOfTxInputs], [GetSigs]; source in
    src/models/attestation_test.go) *)

(** The inner loop of [getSigsFromMsgs]: the signatures for input [i] of the
    messages that have one, appended to [row]. *)
Definition sigs_of_input (msgs : list (list (list byte))) (i : nat)
    (row : list Sig) : list Sig :=
  fold_left
    (fun row msgSplit =>
       if (i <? length msgSplit)%nat then row ++ [nth i msgSplit []]
       else row)
    msgs row.

(** The outer loop of [getSigsFromMsgs], [count] passes from index [i]. *)
Fixpoint getSigs_loop (count i : nat) (msgs : list (list (list byte)))
    (sigs : list (list Sig)) : list (list Sig) :=
  match count with
  | O => sigs
  | S count' =>
      getSigs_loop count' (S i) msgs
        (<[i := sigs_of_input msgs i (nth i sigs [])]> sigs)
  end.

Definition getSigsFromMsgs (msgs : list (list (list byte)))
    (numOfInputs : Z) : outcome (list (list Sig)) :=
  if numOfInputs =? 0 then Returns []
  else if numOfInputs <? 0 then Panics
  else
    let sigs := replicate (Z.to_nat numOfInputs) [] in
    Returns (getSigs_loop (Z.to_nat numOfInputs) 0 msgs sigs).

Definition updateNumOfTxInputs (msgSplit : list (list byte))
    (numOfInputs : Z) : Z :=
  if numOfInputs <? Z.of_nat (length msgSplit)
  then Z.of_nat (length msgSplit)
  else numOfInputs.

(** The part of [GetSigs] that follows the polling of one subscriber:
    [subMsg] is its latest message, decoded, nil if it has sent none. *)
Definition GetSigs_record (state : list (list (list byte)) * Z)
    (subMsg : list (list byte)) : list (list (list byte)) * Z :=
  let '(msgs, numOfTxInputs) := state in
  if (0 <? length subMsg)%nat
  then (msgs ++ [subMsg], updateNumOfTxInputs subMsg numOfTxInputs)
  else (msgs, numOfTxInputs).

(** [GetSigs] on the latest raw message of each subscriber ([None] for a
    subscriber whose queue was empty), in subscriber order. *)
Definition GetSigs_of_latest (latest : list (option (list byte)))
    : outcome (list (list Sig)) :=
  let subMsgs :=
    map (fun msg => match msg with
                    | Some msg => UnserializeBytes msg
                    | None => []
                    end) latest in
  let '(msgs, numOfTxInputs) := fold_left GetSigs_record subMsgs ([], 0) in
  getSigsFromMsgs msgs numOfTxInputs.

(** The decoded latest messages of the subscribers and those among them
    that hold at least one signature. *)
Definition decoded_latest (latest : list (option (list byte)))
    : list (list (list byte)) :=
  map (fun msg => match msg with
                  | Some msg => UnserializeBytes msg
                  | None => []
                  end) latest.

Definition contributing (subMsgs : list (list (list byte)))
    : list (list (list byte)) :=
  List.filter (fun subMsg => (0 <? length subMsg)%nat) subMsgs.

(** ** Attestation client: the remaining operations *)

Section ClientMore.
Context `{crypto : Crypto}.

Definition GetNextAttestationKey (w : AttestClient) (hash : Hash)
    : outcome (option WIF * option error) :=
  match WalletPriv w with
  | None => Returns (None, None)
  | Some _ =>
      let! r :=
        TweakPrivKey (WalletPriv w) (Hash_CloneBytes hash) (MainChainCfg w) in
      match r with
      | Err tweakErr => Returns (None, Some tweakErr)
      | Ok tweakedWalletPriv => Returns (Some tweakedWalletPriv, None)
      end
  end.

(** The loop of [getUnconfirmedTx] over the mempool. *)
Fixpoint getUnconfirmedTx_loop (fuel : nat) (w : AttestClient)
    (mempool : list Hash) : outcome (bool * Hash * option error) :=
  match mempool with
  | [] => Returns (false, zeroHash, None)
  | hash :: rest =>
      let! onchain := verifyTxOnSubchain fuel w hash in
      if (onchain : bool) then Returns (true, hash, None)
      else getUnconfirmedTx_loop fuel w rest
  end.

(** [getUnconfirmedTx]; [mempool] is the node's answer to
    [GetRawMempool]. *)
Definition getUnconfirmedTx (fuel : nat) (w : AttestClient)
    (mempool : result (list Hash)) : outcome (bool * Hash * option error) :=
  match mempool with
  | Err err => Returns (false, zeroHash, Some err)
  | Ok mempool => getUnconfirmedTx_loop fuel w mempool
  end.

End ClientMore.

(** What [signAttestation] leaves as it is: everything but the scriptSig of
    the first input. *)
Definition same_but_first_scriptSig (tx tx0 : wire_MsgTx) : Prop :=
  Version tx = Version tx0 /\ LockTime tx = LockTime tx0 /\
  TxOut tx = TxOut tx0 /\
  map PreviousOutPoint (TxIn tx) = map PreviousOutPoint (TxIn tx0) /\
  map Sequence (TxIn tx) = map Sequence (TxIn tx0) /\
  tail (TxIn tx) = tail (TxIn tx0).


(** [models.CommitmentMerkleCommitment]: a leaf stored with an attestation.
    Its declaration is outside the files verified here; the record has the
    one field that the server reads. *)
Record CommitmentMerkleCommitment : Type := mkCommitmentMerkleCommitment {
  MerkleCommitment_Commitment : Hash
}.

(** The method of the [Db] interface that [GetAttestationCommitment] calls,
    as answered by the record store. *)
Record DbAttestation : Type := mkDbAttestation {
  getAttestationMerkleCommitments :
    Hash -> list CommitmentMerkleCommitment * option error
}.

(** [for _, c := range merkleCommitments { hashes = append(hashes,
    c.Commitment) }] from the nil slice. *)
Definition append_commitments
    (merkleCommitments : list CommitmentMerkleCommitment) : list Hash :=
  fold_left (fun commitmentHashes c =>
               commitmentHashes ++ [MerkleCommitment_Commitment c])
    merkleCommitments [].

Section ServerAttestation.
Context `{models : Models}.

Definition GetAttestationCommitment (db : DbAttestation)
    (attestationTxid : Hash) (confirmed : list bool)
    : models_Commitment * option error :=
  let confirmedParam :=
    match confirmed with
    | c :: _ => c
    | [] => true
    end in
  let '(merkleCommitments, merkleCommitmentsErr) :=
    getAttestationMerkleCommitments db attestationTxid in
  match merkleCommitmentsErr with
  | Some merkleCommitmentsErr => (emptyCommitment, Some merkleCommitmentsErr)
  | None =>
      if (length merkleCommitments =? 0)%nat && confirmedParam
      then (emptyCommitment, None)
      else
        let commitmentHashes := append_commitments merkleCommitments in
        match NewCommitment commitmentHashes with
        | Err errCommitment => (emptyCommitment, Some errCommitment)
        | Ok commitment => (commitment, None)
        end
  end.

End ServerAttestation.

(** The models the server stores: an attestation with its [Confirmed] flag,
    its [Info] and its [Commitment()] method, which fails when no commitment
    is defined, and the parts of a commitment. *)
Class StoredModels `{Models} : Type := {
  models_Attestation : Type;
  models_AttestationInfo : Type;
  models_CommitmentMerkleProof : Type;
  Attestation_Confirmed : models_Attestation -> bool;
  Attestation_Info : models_Attestation -> models_AttestationInfo;
  Attestation_Commitment : models_Attestation -> result models_Commitment;
  GetMerkleCommitments :
    models_Commitment -> list CommitmentMerkleCommitment;
  GetMerkleProofs : models_Commitment -> list models_CommitmentMerkleProof
}.

Section ServerUpdate.
Context `{stored : StoredModels}.

(** The writing methods of the [Db] interface, over the state [St] of the
    record store: each returns the state it leaves and its error. *)
Record DbStore (St : Type) : Type := mkDbStore {
  saveAttestation : models_Attestation -> St -> St * option error;
  saveMerkleCommitments :
    list CommitmentMerkleCommitment -> St -> St * option error;
  saveMerkleProofs :
    list models_CommitmentMerkleProof -> St -> St * option error;
  saveAttestationInfo : models_AttestationInfo -> St -> St * option error
}.
Arguments saveAttestation {St} _ _ _.
Arguments saveMerkleCommitments {St} _ _ _.
Arguments saveMerkleProofs {St} _ _ _.
Arguments saveAttestationInfo {St} _ _ _.

Definition updateAttestationCommitment {St} (db : DbStore St)
    (commitment : models_Commitment) (st : St) : St * option error :=
  let merkleCommitments := GetMerkleCommitments commitment in
  let '(st, errSave) := saveMerkleCommitments db merkleCommitments st in
  match errSave with
  | Some errSave => (st, Some errSave)
  | None =>
      let merkleProofs := GetMerkleProofs commitment in
      let '(st, errSave) := saveMerkleProofs db merkleProofs st in
      match errSave with
      | Some errSave => (st, Some errSave)
      | None => (st, None)
      end
  end.

Definition UpdateLatestAttestation {St} (db : DbStore St)
    (attestation : models_Attestation) (st : St) : St * option error :=
  let '(st, errSave) := saveAttestation db attestation st in
  match errSave with
  | Some errSave => (st, Some errSave)
  | None =>
      match Attestation_Commitment attestation with
      | Err errCommitment => (st, Some errCommitment)
      | Ok commitment =>
          let '(st, errSave) := updateAttestationCommitment db commitment st in
          match errSave with
          | Some errSave => (st, Some errSave)
          | None =>
              if Attestation_Confirmed attestation then
                let '(st, errSave) :=
                  saveAttestationInfo db (Attestation_Info attestation) st in
                match errSave with
                | Some errSave => (st, Some errSave)
                | None => (st, None)
                end
              else (st, None)
          end
      end
  end.

(** A call of a writing method with its argument. *)
Inductive DbCall : Type :=
| CallSaveAttestation (attestation : models_Attestation)
| CallSaveMerkleCommitments
    (merkleCommitments : list CommitmentMerkleCommitment)
| CallSaveMerkleProofs (merkleProofs : list models_CommitmentMerkleProof)
| CallSaveAttestationInfo (info : models_AttestationInfo).

(** A record store seen from outside: its state is the list of the calls
    made so far, and [fails] gives the error of a call after the calls
    before it. *)
Definition logged (fails : list DbCall -> DbCall -> option error)
    (call : DbCall) (log : list DbCall) : list DbCall * option error :=
  (log ++ [call], fails log call).

Definition logging_store (fails : list DbCall -> DbCall -> option error)
    : DbStore (list DbCall) := {|
  saveAttestation := fun a => logged fails (CallSaveAttestation a);
  saveMerkleCommitments :=
    fun cs => logged fails (CallSaveMerkleCommitments cs);
  saveMerkleProofs := fun ps => logged fails (CallSaveMerkleProofs ps);
  saveAttestationInfo := fun i => logged fails (CallSaveAttestationInfo i)
|}.

(** The calls of an update in which nothing fails. *)
Definition update_calls (attestation : models_Attestation) : list DbCall :=
  CallSaveAttestation attestation ::
  match Attestation_Commitment attestation with
  | Err _ => []
  | Ok commitment =>
      [CallSaveMerkleCommitments (GetMerkleCommitments commitment);
       CallSaveMerkleProofs (GetMerkleProofs commitment)]
      ++ (if Attestation_Confirmed attestation
          then [CallSaveAttestationInfo (Attestation_Info attestation)]
          else [])
  end.

End ServerUpdate.

(** ** Configuration parser (package config; source in
    src/config/jsonparser.go) *)

Definition ErroConfigNameNotFound : error := "config name not found".
Definition ErrorConfigValueNotFound : error := "config value not found".

(** A decoded JSON value, as encoding/json stores it in an [interface{}]. *)
#[warnings="-register-all"] Inductive JsonValue : Type :=
| JsonString (str : string)
| JsonNumber (f : float)
| JsonBool (b : bool)
| JsonNull
| JsonArray (vs : list JsonValue)
| JsonObject (fields : list (string * JsonValue)).

(** [type ClientCfg map[string]interface{}]; the nil map reads as the empty
    one. *)
Definition ClientCfg : Type := gmap string JsonValue.

Section Config.

(** [json.NewDecoder(bytes.NewReader(conf)).Decode(&j)] for [j] of type
    [map[string]map[string]interface{}]. *)
Variable json_Decode : list byte -> result (gmap string ClientCfg).

Definition getCfg (name : string) (conf : list byte)
    : ClientCfg * option error :=
  match json_Decode conf with
  | Err _ => (∅, Some ErroConfigNameNotFound)
  | Ok j =>
      match j !! name with
      | None => (∅, Some ErroConfigNameNotFound)
      | Some val => (val, None)
      end
  end.

End Config.

Definition getValue (conf : ClientCfg) (key : string)
    : string * option error :=
  match conf !! key with
  | None => (""%string, Some ErrorConfigValueNotFound)
  | Some val =>
      match val with
      | JsonString str => (str, None)
      | _ => (""%string, Some ErrorConfigValueNotFound)
      end
  end.

Definition tryGetValue (conf : ClientCfg) (key : string) : string :=
  match conf !! key with
  | None => ""%string
  | Some val =>
      match val with
      | JsonString str => str
      | _ => ""%string
      end
  end.

(* ===================================================================== *)
(** * Part II: properties                                                 *)
(* ===================================================================== *)

(** ** Machine integers *)

Lemma wrap_int_id z : in_int_range z -> wrap_int z = z.
Proof.
  unfold in_int_range, int_min, int_max, wrap_int. intros H.
  rewrite Z.mod_small; lia.
Qed.

Lemma wrap_int_range z : in_int_range (wrap_int z).
Proof.
  unfold in_int_range, int_min, int_max, wrap_int.
  pose proof (Z.mod_pos_bound (z + 2 ^ 63) (2 ^ 64) ltac:(lia)). lia.
Qed.

(** Wrapping adds a multiple of 2^64. *)
Lemma wrap_int_repr z : exists k, wrap_int z = z + k * 2 ^ 64.
Proof.
  exists (- ((z + 2 ^ 63) / 2 ^ 64)). unfold wrap_int.
  pose proof (Z.div_mod (z + 2 ^ 63) (2 ^ 64) ltac:(lia)). lia.
Qed.

Lemma wrap_int_shift z k : wrap_int (z + k * 2 ^ 64) = wrap_int z.
Proof.
  unfold wrap_int.
  replace (z + k * 2 ^ 64 + 2 ^ 63) with (z + 2 ^ 63 + k * 2 ^ 64) by lia.
  now rewrite Z_mod_plus_full.
Qed.

(** Intermediate wrap-arounds do not change a wrapped difference or a
    wrapped product. *)
Lemma wrap_int_sub_r a b : wrap_int (a - wrap_int b) = wrap_int (a - b).
Proof.
  destruct (wrap_int_repr b) as (k & ->).
  replace (a - (b + k * 2 ^ 64)) with (a - b + (- k) * 2 ^ 64) by lia.
  apply wrap_int_shift.
Qed.

Lemma wrap_int_mul_l d s : wrap_int (wrap_int d * s) = wrap_int (d * s).
Proof.
  destruct (wrap_int_repr d) as (k & ->).
  replace ((d + k * 2 ^ 64) * s) with (d * s + (k * s) * 2 ^ 64) by lia.
  apply wrap_int_shift.
Qed.

(** ** Fee controller *)

Lemma S4_fee_clamp :
  let oracle fee := ApiDecoded (fun t => if String.eqb t "hourFee" then Some fee else None) in
  let a0 := NewAttestFees (mkFeesConfig 5 80 5) (oracle 3) in
  let a2 := BumpFee (BumpFee a0) in
  let a3 := ResetFee a2 [] (oracle 200) in
  let a4 := ResetFee a3 [true] (oracle 200) in
  (currentFee a0, currentFee a2, currentFee a3, currentFee a4) = (5, 15, 80, 5).
Proof. reflexivity. Qed.

Lemma fees_ok_limits a : fees_ok a -> limits_ok a.
Proof. unfold fees_ok, limits_ok. tauto. Qed.

Lemma ResetFee_limits a useMinimum resp :
  minFee (ResetFee a useMinimum resp) = minFee a /\
  maxFee (ResetFee a useMinimum resp) = maxFee a /\
  feeIncrement (ResetFee a useMinimum resp) = feeIncrement a.
Proof. unfold ResetFee. cbn. auto. Qed.

Lemma BumpFee_limits a :
  minFee (BumpFee a) = minFee a /\ maxFee (BumpFee a) = maxFee a /\
  feeIncrement (BumpFee a) = feeIncrement a.
Proof. unfold BumpFee. cbn. destruct (_ >? _); cbn; auto. Qed.

(** [ResetFee(true)] selects the minimum and never asks the API. *)
Lemma ResetFee_useMinimum a rest resp :
  currentFee (ResetFee a (true :: rest) resp) = minFee a.
Proof. reflexivity. Qed.

(** Without [useMinimum] the API's fee is clamped into the limits. *)
Lemma ResetFee_clamp a useMinimum resp :
  minFee a <= maxFee a ->
  hd false useMinimum = false ->
  currentFee (ResetFee a useMinimum resp)
  = Z.max (minFee a) (Z.min (getBestFee resp []) (maxFee a)).
Proof.
  intros Hle Hhd. unfold ResetFee.
  assert (Hcur : forall fee,
    currentFee (set_currentFee a fee) = fee) by reflexivity.
  destruct useMinimum as [|[] rest]; try discriminate; rewrite Hcur;
    destruct (Z.ltb_spec (getBestFee resp []) (minFee a));
    try destruct (Z.gtb_spec (getBestFee resp []) (maxFee a)); lia.
Qed.

Lemma getBestFee_failure resp :
  resp = ApiRequestFailed \/ resp = ApiDecodingFailed \/
  (exists respJson, resp = ApiDecoded respJson /\
                    respJson DefaultBestFeeType = None) ->
  getBestFee resp [] = -1.
Proof.
  intros [-> | [-> | (m & -> & Hm)]]; try reflexivity.
  unfold getBestFee, getFeeFromAPI. now rewrite Hm.
Qed.

(** On a failed API query the fee falls back to the minimum. *)
Lemma ResetFee_api_failure a useMinimum resp :
  0 <= minFee a ->
  getBestFee resp [] = -1 ->
  currentFee (ResetFee a useMinimum resp) = minFee a.
Proof.
  intros Hmin Hfail. unfold ResetFee.
  destruct useMinimum as [|[] rest]; cbn; try reflexivity;
    rewrite Hfail; destruct (Z.ltb_spec (-1) (minFee a)); lia.
Qed.

(** [BumpFee] when the sum fits the machine integer. *)
Lemma BumpFee_in_range a :
  in_int_range (currentFee a + feeIncrement a) ->
  currentFee (BumpFee a) = Z.min (currentFee a + feeIncrement a) (maxFee a).
Proof.
  intros Hr. unfold BumpFee. cbn. rewrite (wrap_int_id _ Hr).
  destruct (Z.gtb_spec (currentFee a + feeIncrement a) (maxFee a)); cbn; lia.
Qed.

Lemma ResetFee_ok a useMinimum resp :
  limits_ok a -> fees_ok (ResetFee a useMinimum resp).
Proof.
  intros (H1 & H2 & H3 & H4). unfold fees_ok, ResetFee. cbn.
  repeat split; try lia;
    destruct useMinimum as [|[] rest]; try lia;
    destruct (Z.ltb_spec (getBestFee resp []) (minFee a)); try lia;
    destruct (Z.gtb_spec (getBestFee resp []) (maxFee a)); lia.
Qed.

Lemma BumpFee_ok a :
  fees_ok a -> feeIncrement a <= int_max - DefaultMaxFee ->
  fees_ok (BumpFee a).
Proof.
  intros (H1 & H2 & H3 & H4 & H5) Hinc.
  assert (Hr : in_int_range (currentFee a + feeIncrement a)).
  { unfold in_int_range, int_min, int_max, DefaultMaxFee in *. lia. }
  pose proof (BumpFee_in_range a Hr) as Hcur.
  destruct (BumpFee_limits a) as (Emin & Emax & Einc).
  unfold fees_ok. rewrite Emin, Emax, Einc, Hcur. lia.
Qed.

Lemma NewAttestFees_ok feesConfig resp :
  fees_ok (NewAttestFees feesConfig resp).
Proof.
  unfold NewAttestFees. apply ResetFee_ok. unfold limits_ok, DefaultMaxFee,
    DefaultMinFee, DefaultFeeIncrement. cbn.
  destruct (Z.gtb_spec (MinFee feesConfig) 0);
    destruct (Z.ltb_spec (MinFee feesConfig) 100); cbn;
    destruct (Z.gtb_spec (MaxFee feesConfig) 0); cbn;
    try destruct (Z.gtb_spec (MaxFee feesConfig) (MinFee feesConfig)); cbn;
    try destruct (Z.gtb_spec (MaxFee feesConfig) 10); cbn;
    destruct (Z.ltb_spec (MaxFee feesConfig) 100); cbn;
    destruct (Z.gtb_spec (FeeIncrement feesConfig) 0); lia.
Qed.

Lemma NewAttestFees_feeIncrement feesConfig resp :
  feeIncrement (NewAttestFees feesConfig resp)
  = if FeeIncrement feesConfig >? 0 then FeeIncrement feesConfig
    else DefaultFeeIncrement.
Proof. reflexivity. Qed.

(** Each invalid configuration value falls back to its own default. *)
Lemma NewAttestFees_defaults feesConfig resp :
  let a := NewAttestFees feesConfig resp in
  (~ 0 < MinFee feesConfig < DefaultMaxFee -> minFee a = DefaultMinFee) /\
  (0 < MinFee feesConfig < DefaultMaxFee -> minFee a = MinFee feesConfig) /\
  (~ minFee a < MaxFee feesConfig < DefaultMaxFee ->
     maxFee a = DefaultMaxFee) /\
  (minFee a < MaxFee feesConfig < DefaultMaxFee ->
     maxFee a = MaxFee feesConfig) /\
  (~ 0 < FeeIncrement feesConfig -> feeIncrement a = DefaultFeeIncrement) /\
  (0 < FeeIncrement feesConfig -> feeIncrement a = FeeIncrement feesConfig).
Proof.
  unfold NewAttestFees, DefaultMaxFee, DefaultMinFee, DefaultFeeIncrement.
  cbn.
  destruct (Z.gtb_spec (MinFee feesConfig) 0);
    destruct (Z.ltb_spec (MinFee feesConfig) 100); cbn;
    destruct (Z.gtb_spec (MaxFee feesConfig) 0); cbn;
    try destruct (Z.gtb_spec (MaxFee feesConfig) (MinFee feesConfig)); cbn;
    try destruct (Z.gtb_spec (MaxFee feesConfig) 10); cbn;
    destruct (Z.ltb_spec (MaxFee feesConfig) 100); cbn;
    destruct (Z.gtb_spec (FeeIncrement feesConfig) 0);
    repeat split; intros; lia.
Qed.

(** With an increment that cannot overflow, the invariant is kept by every
    sequence of calls. *)
Lemma fee_calls_ok cs : forall a,
  fees_ok a -> feeIncrement a <= int_max - DefaultMaxFee ->
  fees_ok (fee_calls a cs).
Proof.
  induction cs as [|c cs IH]; intros a Hok Hinc; [exact Hok|].
  change (fees_ok (fee_calls (fee_call a c) cs)). apply IH.
  - destruct c as [useMinimum resp|]; unfold fee_call.
    + apply ResetFee_ok, fees_ok_limits, Hok.
    + now apply BumpFee_ok.
  - destruct c as [useMinimum resp|]; unfold fee_call.
    + destruct (ResetFee_limits a useMinimum resp) as (_ & _ & E).
      now rewrite E.
    + destruct (BumpFee_limits a) as (_ & _ & E). now rewrite E.
Qed.

(** C4.  [ResetFee] and [BumpFee] on the state that [NewAttestFees] builds
    from the configuration (10, 100, 2^63-1): resetting to the minimum gives
    10, a failed or too small API fee gives 10, a too large one gives 100;
    the bump, whose specified result is min(currentFee + feeIncrement,
    maxFee) = 100, overflows the machine integer and leaves
    currentFee = -9223372036854775799. *)
Lemma C4_BumpFee_overflow :
  let a := NewAttestFees (mkFeesConfig 10 100 int_max) ApiRequestFailed in
  let api fee := ApiDecoded (fun _ => Some fee) in
  a = mkAttestFees 10 100 int_max 10 /\
  currentFee (ResetFee a [true] (api 50)) = minFee a /\
  currentFee (ResetFee a [] ApiDecodingFailed) = minFee a /\
  currentFee (ResetFee a [] (api 3)) = minFee a /\
  currentFee (ResetFee a [] (api 50)) = 50 /\
  currentFee (ResetFee a [] (api 200)) = maxFee a /\
  Z.min (currentFee a + feeIncrement a) (maxFee a) = 100 /\
  currentFee (BumpFee a) = -9223372036854775799.
Proof. vm_compute. repeat split. Qed.

(** C5.  The fee invariant minFee <= currentFee <= maxFee after
    [NewAttestFees] and a sequence of calls: with the accepted configuration
    value feeIncrement = 2^63-1 a single [BumpFee] leaves currentFee below
    minFee. *)
Lemma C5_fee_invariant_overflow :
  let cfg := mkFeesConfig 10 100 int_max in
  let a := fee_calls (NewAttestFees cfg ApiRequestFailed) [CallBumpFee] in
  in_int_range (FeeIncrement cfg) /\
  minFee a = 10 /\ maxFee a = 100 /\
  currentFee a = -9223372036854775799 /\
  ~ (minFee a <= currentFee a <= maxFee a).
Proof. vm_compute. repeat split; try discriminate. intros [H _]. now apply H. Qed.

(** ** Signer framing *)

Lemma byte_of_len_to_nat n :
  (n <= 255)%nat -> Byte.to_nat (byte_of_len n) = n.
Proof.
  intros Hn. unfold byte_of_len.
  rewrite Nat.mod_small by lia.
  destruct (Byte.of_nat n) as [b|] eqn:E.
  - now apply Byte.to_of_nat.
  - apply Byte.of_nat_None_iff in E. lia.
Qed.

Lemma fold_serialize_step data : forall acc,
  fold_left serialize_step data acc = acc ++ concat (map frame data).
Proof.
  induction data as [|x data IH]; intros acc; cbn.
  - now rewrite app_nil_r.
  - rewrite IH. unfold serialize_step, frame.
    now rewrite <- !app_assoc.
Qed.

Lemma SerializeBytes_frames data :
  SerializeBytes data = concat (map frame data).
Proof.
  unfold SerializeBytes. destruct data as [|x data]; [reflexivity|].
  cbn [length Nat.eqb]. now rewrite fold_serialize_step.
Qed.

Lemma frames_length data :
  (length data <= length (concat (map frame data)))%nat.
Proof.
  induction data as [|x data IH]; cbn; [lia|].
  rewrite length_app. lia.
Qed.

(** The fuel of the loop is never what ends it: from the read position [it],
    [length data - it] passes suffice, and more passes change nothing. *)
Lemma unserialize_loop_fuel (data : list byte) (fuel : nat) :
  forall it dataList,
  (length data - it <= fuel)%nat ->
  unserialize_loop (S fuel) data it dataList
  = unserialize_loop fuel data it dataList.
Proof.
  induction fuel as [|fuel IH]; intros it dataList Hfuel.
  - cbn [unserialize_loop].
    destruct (Nat.ltb_spec it (length data)); [lia|reflexivity].
  - change (unserialize_loop (S (S fuel)) data it dataList)
      with (if (it <? length data)%nat then
              match data !! it with
              | None => dataList
              | Some txSize =>
                  if (length data <? Byte.to_nat txSize + 1 + it)%nat
                  then dataList
                  else
                    unserialize_loop (S fuel) data
                      (it + (1 + Byte.to_nat txSize))%nat
                      (dataList
                         ++ [take (Byte.to_nat txSize)
                               (drop (it + 1)%nat data)])
              end
            else dataList).
    cbn [unserialize_loop].
    destruct (Nat.ltb_spec it (length data)); [|reflexivity].
    destruct (data !! it) as [txSize|]; [|reflexivity].
    destruct (_ <? _)%nat; [reflexivity|].
    apply IH. lia.
Qed.

(** The loop reads back the frames that follow the read position. *)
Lemma unserialize_loop_frames xs : forall fuel pre acc,
  Forall (fun x => (length x <= 255)%nat) xs ->
  (length xs <= fuel)%nat ->
  unserialize_loop fuel (pre ++ concat (map frame xs)) (length pre) acc
  = acc ++ xs.
Proof.
  induction xs as [|x xs IH]; intros fuel pre acc Hall Hfuel.
  - cbn [map concat]. rewrite !app_nil_r.
    destruct fuel as [|fuel]; [reflexivity|]. cbn [unserialize_loop].
    now rewrite Nat.ltb_irrefl.
  - destruct fuel as [|fuel]; [cbn in Hfuel; lia|].
    apply Forall_cons in Hall as [Hx Hall].
    cbn [map concat]. cbn [unserialize_loop].
    set (data := pre ++ frame x ++ concat (map frame xs)).
    assert (Hlen : length data
                   = (length pre + (1 + length x)
                      + length (concat (map frame xs)))%nat).
    { unfold data, frame. rewrite !length_app. cbn [length]. lia. }
    assert (Hlt : (length pre <? length data)%nat = true).
    { apply Nat.ltb_lt. lia. }
    rewrite Hlt.
    assert (Hlook : data !! length pre = Some (byte_of_len (length x))).
    { unfold data. rewrite lookup_app_r by lia.
      now rewrite Nat.sub_diag. }
    rewrite Hlook, (byte_of_len_to_nat _ Hx).
    assert (Hchk : (length data <? length x + 1 + length pre)%nat = false).
    { apply Nat.ltb_ge. lia. }
    rewrite Hchk.
    assert (Hchunk : take (length x) (drop (length pre + 1) data) = x).
    { assert (E : data = (pre ++ [byte_of_len (length x)])
                           ++ x ++ concat (map frame xs)).
      { unfold data, frame. now rewrite <- app_assoc. }
      rewrite E, drop_app_length'
        by (rewrite length_app; cbn [length]; lia).
      now rewrite take_app_length. }
    rewrite Hchunk.
    replace data with ((pre ++ frame x) ++ concat (map frame xs))
      by (unfold data; now rewrite <- app_assoc).
    replace (length pre + (1 + length x))%nat with (length (pre ++ frame x))
      by (unfold frame; rewrite length_app; cbn [length]; lia).
    rewrite (IH fuel (pre ++ frame x) (acc ++ [x]) Hall)
      by (cbn in Hfuel; lia).
    now rewrite <- app_assoc.
Qed.

(** C3.  Framing round trip: for chunks of at most 255 bytes
    [UnserializeBytes (SerializeBytes xs) = xs]; the empty list serializes
    to the empty payload; [[0xAA], [0xBB, 0xCC]] serializes to
    01 AA 02 BB CC. *)
Theorem C3_framing_round_trip (xs : list (list byte)) :
  Forall (fun x => (length x <= 255)%nat) xs ->
  UnserializeBytes (SerializeBytes xs) = xs /\
  SerializeBytes [] = [] /\
  SerializeBytes [[xaa]; [xbb; xcc]] = [x01; xaa; x02; xbb; xcc].
Proof.
  intros Hall. split; [|split; reflexivity].
  rewrite SerializeBytes_frames. unfold UnserializeBytes.
  destruct (Nat.eqb_spec (length (concat (map frame xs))) 0) as [E|_].
  - pose proof (frames_length xs). destruct xs; [reflexivity|].
    cbn [length] in *. lia.
  - apply (unserialize_loop_frames xs _ [] [] Hall), frames_length.
Qed.

Lemma C3_framing_round_trip_witness :
  Forall (fun x => (length x <= 255)%nat) [[xaa]; [xbb; xcc]] /\
  UnserializeBytes (SerializeBytes [[xaa]; [xbb; xcc]])
  = [[xaa]; [xbb; xcc]].
Proof.
  assert (H : Forall (fun x : list byte => (length x <= 255)%nat)
                [[xaa]; [xbb; xcc]]).
  { repeat constructor; cbn; lia. }
  split; [exact H|].
  exact (proj1 (C3_framing_round_trip [[xaa]; [xbb; xcc]] H)).
Defined.

(** ** Record server *)

Section ServerProperties.
Context `{lib : BtcLib} `{models : Models}.

(** C10.  When the record store reports an empty merkle root and no error
    (no attestation yet) for the flag it is asked with -- the first optional
    argument, [true] when there is none --
    [GetLatestAttestationCommitmentHash] returns the zero hash and a nil
    error, whatever the optional [confirmed] flag. *)
Theorem C10_no_attestation_zero_hash (s : Server) (confirmed : list bool) :
  getLatestAttestationMerkleRoot (dbInterface s) (hd true confirmed)
  = (""%string, None) ->
  GetLatestAttestationCommitmentHash s confirmed = (zeroHash, None).
Proof.
  intros Hdb. unfold GetLatestAttestationCommitmentHash.
  destruct confirmed as [|c rest]; cbn [hd] in Hdb; now rewrite Hdb.
Qed.

(** An error of the record store is passed on, also with an empty root. *)
Lemma GetLatestAttestationCommitmentHash_error (s : Server)
    (confirmed : list bool) (merkleRoot : string) (rootErr : error) :
  getLatestAttestationMerkleRoot (dbInterface s) (hd true confirmed)
  = (merkleRoot, Some rootErr) ->
  GetLatestAttestationCommitmentHash s confirmed = (zeroHash, Some rootErr).
Proof.
  intros Hdb. unfold GetLatestAttestationCommitmentHash.
  destruct confirmed as [|c rest]; cbn [hd] in Hdb; now rewrite Hdb.
Qed.

End ServerProperties.

Lemma C10_no_attestation_zero_hash_witness :
  let s :=
    mkServer
      (mkDb (fun confirmed => if confirmed then ("ab"%string, None)
                              else (""%string, None))
            ([], None)) in
  getLatestAttestationMerkleRoot (dbInterface s) (hd true [false])
  = (""%string, None) /\
  @GetLatestAttestationCommitmentHash ref_BtcLib s [false]
  = (zeroHash, None).
Proof.
  split; [reflexivity|].
  apply (@C10_no_attestation_zero_hash ref_BtcLib). reflexivity.
Defined.

(** ** Client commitments *)





Section ClientCommitmentProperties.
Context `{models : Models}.


End ClientCommitmentProperties.

Lemma example_commitments_leaves :
  @GetClientCommitment ref_Models
    (mkServer (mkDb (fun _ => (""%string, None))
                 (example_commitments, None)))
  = Returns ([replicate 32 x1a; zeroHash; replicate 32 x3a], None).
Proof. reflexivity. Qed.


(** ** Attestation client: keys and scripts *)

Section KeyProperties.
Context `{crypto : Crypto}.


Lemma Hash_IsEqual_false (h1 h2 : Hash) :
  h1 <> h2 -> Hash_IsEqual h1 h2 = false.
Proof. intros H1. unfold Hash_IsEqual. now apply bool_decide_eq_false. Qed.


(** Without a multisig script there is no redeem script at any hash. *)
Lemma GetScriptFromHash_single_key (w : AttestClient) (hash : Hash) r :
  hash <> zeroHash -> pubkeys w = [] ->
  GetAddressFromPrivKey (WalletPriv w) (MainChainCfg w) = Returns r ->
  GetScriptFromHash w hash = Returns ""%string.
Proof.
  intros Hnz Hpubs Haddr. unfold GetScriptFromHash, GetNextAttestationAddr.
  rewrite (Hash_IsEqual_false _ _ Hnz), Hpubs, Haddr. cbn.
  now destruct r.
Qed.


End KeyProperties.

(** ** Attestation client: building and bumping the transaction *)

Lemma rbf_sequence_value : rbf_sequence = 0xFFFFFFFD.
Proof. vm_compute. reflexivity. Qed.

Section TransactionProperties.
Context `{lib : BtcLib}.

(** [createAttestation] on a node that answers with a one-in/one-out raw
    transaction: the sequence is set and the fee is taken from the output,
    in 64-bit arithmetic. *)
Lemma createAttestation_spec (w : AttestClient) (paytoaddr : Address)
    (txunspent : ListUnspentResult) (msgtx : wire_MsgTx)
    (txin0 : wire_TxIn) (txout0 : wire_TxOut) :
  CreateRawTransaction (MainClient w)
    [mkTransactionInput (TxID txunspent) (Vout txunspent)]
    [(paytoaddr, unspent_amount txunspent)] = Ok msgtx ->
  TxIn msgtx = [txin0] -> TxOut msgtx = [txout0] ->
  let sized := set_TxIn msgtx [set_Sequence txin0 0xFFFFFFFD] in
  let fee := GetFee (Fees w) * SerializeSize sized in
  createAttestation w paytoaddr txunspent
  = Returns
      (Some (set_TxOut sized
               [set_Value txout0 (wrap_int (Value txout0 - fee))]),
       None).
Proof.
  intros Hrpc Hin Hout sized fee. unfold createAttestation.
  rewrite Hrpc, Hin, rbf_sequence_value. fold sized.
  replace (TxOut sized) with [txout0] by (symmetry; exact Hout).
  fold fee. now rewrite wrap_int_sub_r.
Qed.


(** On a fee controller that satisfies its invariant and whose increment
    cannot overflow, with a transaction size and an output value in the
    range of bitcoin amounts, the fee arithmetic stays in range. *)
Lemma bump_arithmetic_in_range (a : AttestFees) (size value : Z) :
  fees_ok a -> feeIncrement a <= int_max - DefaultMaxFee ->
  0 <= size <= 2 ^ 32 -> - 2 ^ 62 <= value <= 2 ^ 62 ->
  let d := GetFee (BumpFee a) - GetFee a in
  0 <= d <= DefaultMaxFee /\
  in_int_range d /\ in_int_range (d * size) /\
  in_int_range (value - d * size).
Proof.
  intros Hok Hinc Hsize Hvalue d.
  pose proof (BumpFee_ok a Hok Hinc) as Hok'.
  destruct Hok as (H1 & H2 & H3 & H4 & H5).
  destruct Hok' as (_ & _ & _ & _ & H5').
  destruct (BumpFee_limits a) as (Emin & Emax & _).
  rewrite Emin, Emax in H5'.
  assert (Hd : 0 <= d <= DefaultMaxFee).
  { unfold d, GetFee.
    assert (Hr : in_int_range (currentFee a + feeIncrement a)).
    { unfold in_int_range, int_min, int_max, DefaultMaxFee in *. lia. }
    rewrite (BumpFee_in_range a Hr). unfold DefaultMaxFee in *. lia. }
  split; [exact Hd|].
  unfold in_int_range, int_min, int_max, DefaultMaxFee in *.
  assert (0 <= d * size <= 100 * 2 ^ 32) by nia.
  lia.
Qed.

End TransactionProperties.


(** The first attestation of a client whose fee is 10 per byte on an
    unspent output of 0.5 BTC. *)
Lemma createAttestation_example :
  let txunspent :=
    mkListUnspentResult (ref_Hash_String example_txid2) 0 0.5%float in
  @createAttestation ref_BtcLib (example_client None [txunspent]) "p2sh:51"
    txunspent
  = Returns
      (Some (mkMsgTx 2 [mkTxIn (mkOutPoint example_txid2 0) [] 0xFFFFFFFD]
               [mkTxOut (50000000 - 10 * 67)
                  (String.list_byte_of_string "p2sh:51")] 0),
       None).
Proof. vm_compute. reflexivity. Qed.

(** C2.  [createAttestation] on the unspent output of 0.29 BTC
    (29000000 satoshi) with a fee of 10 per byte and a serialized size of 67
    bytes: the transaction has the one input, with sequence 0xFFFFFFFD, and
    one output, but the product 0.29 * 100000000 is 28999999.999999996 in
    float64 and its conversion discards the fraction, so the output pays
    28999999 - 670 where the full amount minus the fee is 29000000 - 670. *)
Lemma C2_createAttestation_amount_truncated :
  let txunspent :=
    mkListUnspentResult (ref_Hash_String example_txid2) 0 0.29%float in
  let w := example_client None [txunspent] in
  unspent_amount txunspent = 28999999 /\
  GetFee (Fees w) = 10 /\
  @createAttestation ref_BtcLib w "p2sh:51" txunspent
  = Returns
      (Some (mkMsgTx 2 [mkTxIn (mkOutPoint example_txid2 0) [] 0xFFFFFFFD]
               [mkTxOut (29000000 - 1 - 10 * 67)
                  (String.list_byte_of_string "p2sh:51")] 0),
       None).
Proof. vm_compute. repeat split. Qed.


(** ** Attestation client: combining signatures *)

Lemma slice_append_elems {A} (zero : A) grow (s : slice A) (xs : list A) :
  elems (slice_append zero grow s xs) = elems s ++ xs.
Proof. unfold slice_append. now destruct (_ <=? _)%nat. Qed.

(** Taking no more than the length of a slice never panics and never reads
    beyond the length. *)
Lemma slice_upto_within {A} (s : slice A) (n : Z) :
  0 <= n <= Z.of_nat (slice_len s) ->
  slice_upto s n = Returns (take (Z.to_nat n) (elems s)).
Proof.
  intros Hn. unfold slice_upto, slice_cap, slice_len in *.
  destruct (Z.ltb_spec n 0); [lia|].
  destruct (Z.ltb_spec (Z.of_nat (length (elems s) + length (spare s))) n);
    [lia|].
  cbn [orb]. now rewrite take_app_le by lia.
Qed.

(** Taking more than the capacity panics. *)
Lemma slice_upto_beyond {A} (s : slice A) (n : Z) :
  Z.of_nat (slice_cap s) < n -> slice_upto s n = Panics.
Proof.
  intros Hn. unfold slice_upto.
  destruct (Z.ltb_spec (Z.of_nat (slice_cap s)) n); [|lia].
  now rewrite orb_true_r.
Qed.

Section SigningProperties.
Context `{crypto : Crypto}.

(** Local signatures first, then the peers', and enough of them: the
    scriptSig is built from the first [numOfSigs] of the combined list. *)
Lemma combine_sigs_local (w : AttestClient) (signedMsgTx : wire_MsgTx)
    (redeemScript : string) (sigs : list Sig) txin0 ins mySigs script :
  redeemScript <> ""%string ->
  TxIn signedMsgTx = txin0 :: ins ->
  ParseScriptSig (SignatureScript txin0) = (mySigs, script) ->
  has_local_sigs mySigs script redeemScript = true ->
  0 <= numOfSigs w <= Z.of_nat (length (elems mySigs ++ sigs)) ->
  combine_sigs w signedMsgTx redeemScript sigs
  = Returns
      (Some (with_scriptSig signedMsgTx txin0 ins
               (CreateScriptSig
                  (take (Z.to_nat (numOfSigs w)) (elems mySigs ++ sigs))
                  script)),
       None).
Proof.
  intros Hrs Hin Hparse Hlocal Hm. unfold combine_sigs.
  apply String.eqb_neq in Hrs. rewrite Hrs, Hin, Hparse. cbn [negb].
  fold (has_local_sigs mySigs script redeemScript). rewrite Hlocal.
  rewrite slice_upto_within
    by (unfold slice_len; now rewrite slice_append_elems).
  now rewrite slice_append_elems.
Qed.

(** No usable local signature and enough peer signatures: the scriptSig is
    built from the first [numOfSigs] peer signatures. *)
Lemma combine_sigs_peers (w : AttestClient) (signedMsgTx : wire_MsgTx)
    (redeemScript : string) (sigs : list Sig) txin0 ins mySigs script :
  redeemScript <> ""%string ->
  TxIn signedMsgTx = txin0 :: ins ->
  ParseScriptSig (SignatureScript txin0) = (mySigs, script) ->
  has_local_sigs mySigs script redeemScript = false ->
  0 <= numOfSigs w <= Z.of_nat (length sigs) ->
  combine_sigs w signedMsgTx redeemScript sigs
  = Returns
      (Some (with_scriptSig signedMsgTx txin0 ins
               (CreateScriptSig (take (Z.to_nat (numOfSigs w)) sigs)
                  (hex_DecodeString redeemScript))),
       None).
Proof.
  intros Hrs Hin Hparse Hlocal Hm. unfold combine_sigs.
  apply String.eqb_neq in Hrs. rewrite Hrs, Hin, Hparse. cbn [negb].
  fold (has_local_sigs mySigs script redeemScript). rewrite Hlocal.
  destruct (Z.leb_spec (numOfSigs w) (Z.of_nat (length sigs))); [|lia].
  unfold list_upto. destruct (Z.ltb_spec (numOfSigs w) 0); [lia|].
  reflexivity.
Qed.

(** No usable local signature and too few peer signatures: the transaction
    is returned as it is, without error. *)
Lemma combine_sigs_too_few_peers (w : AttestClient)
    (signedMsgTx : wire_MsgTx) (redeemScript : string) (sigs : list Sig)
    txin0 ins mySigs script :
  TxIn signedMsgTx = txin0 :: ins ->
  ParseScriptSig (SignatureScript txin0) = (mySigs, script) ->
  has_local_sigs mySigs script redeemScript = false ->
  Z.of_nat (length sigs) < numOfSigs w ->
  combine_sigs w signedMsgTx redeemScript sigs
  = Returns (Some signedMsgTx, None).
Proof.
  intros Hin Hparse Hlocal Hm. unfold combine_sigs.
  destruct (negb _); [|reflexivity]. rewrite Hin, Hparse.
  fold (has_local_sigs mySigs script redeemScript). rewrite Hlocal.
  destruct (Z.leb_spec (numOfSigs w) (Z.of_nat (length sigs))); [lia|].
  reflexivity.
Qed.

(** A usable local signature and too few signatures in all: the slice
    expression is taken all the same; beyond the capacity it panics. *)
Lemma combine_sigs_local_too_few (w : AttestClient)
    (signedMsgTx : wire_MsgTx) (redeemScript : string) (sigs : list Sig)
    txin0 ins mySigs script :
  redeemScript <> ""%string ->
  TxIn signedMsgTx = txin0 :: ins ->
  ParseScriptSig (SignatureScript txin0) = (mySigs, script) ->
  has_local_sigs mySigs script redeemScript = true ->
  Z.of_nat (slice_cap (slice_append nilSig growslice mySigs sigs))
    < numOfSigs w ->
  combine_sigs w signedMsgTx redeemScript sigs = Panics.
Proof.
  intros Hrs Hin Hparse Hlocal Hm. unfold combine_sigs.
  apply String.eqb_neq in Hrs. rewrite Hrs, Hin, Hparse. cbn [negb].
  fold (has_local_sigs mySigs script redeemScript). rewrite Hlocal.
  now rewrite slice_upto_beyond.
Qed.

(** A usable local signature and too few signatures in all, within the
    capacity: the scriptSig is built from the signatures followed by cells
    of the backing array that hold no signature of this transaction. *)
Lemma combine_sigs_local_spare (w : AttestClient)
    (signedMsgTx : wire_MsgTx) (redeemScript : string) (sigs : list Sig)
    txin0 ins mySigs script :
  redeemScript <> ""%string ->
  TxIn signedMsgTx = txin0 :: ins ->
  ParseScriptSig (SignatureScript txin0) = (mySigs, script) ->
  has_local_sigs mySigs script redeemScript = true ->
  let combinedSigs := slice_append nilSig growslice mySigs sigs in
  Z.of_nat (slice_len combinedSigs) < numOfSigs w
    <= Z.of_nat (slice_cap combinedSigs) ->
  combine_sigs w signedMsgTx redeemScript sigs
  = Returns
      (Some (with_scriptSig signedMsgTx txin0 ins
               (CreateScriptSig
                  (take (Z.to_nat (numOfSigs w))
                     (elems combinedSigs ++ spare combinedSigs))
                  script)),
       None).
Proof.
  intros Hrs Hin Hparse Hlocal combinedSigs Hm. unfold combine_sigs.
  apply String.eqb_neq in Hrs. rewrite Hrs, Hin, Hparse. cbn [negb].
  fold (has_local_sigs mySigs script redeemScript). rewrite Hlocal.
  fold combinedSigs. unfold slice_upto.
  destruct (Z.ltb_spec (numOfSigs w) 0); [lia|].
  destruct (Z.ltb_spec (Z.of_nat (slice_cap combinedSigs)) (numOfSigs w));
    [lia|].
  reflexivity.
Qed.

(** A client without a wallet key combines the peer signatures on the
    unsigned transaction. *)
Lemma signAttestation_not_signer (w : AttestClient) msgtx sigs hash rs :
  WalletPriv w = None ->
  GetScriptFromHash w hash = Returns rs ->
  signAttestation w msgtx sigs hash = combine_sigs w msgtx rs sigs.
Proof.
  intros Hpriv Hscript. unfold signAttestation.
  now rewrite Hscript, Hpriv.
Qed.

(** A client with a wallet key signs first and combines on its signed
    transaction; a signing error is returned as it is. *)
Lemma signAttestation_signer (w : AttestClient) msgtx sigs hash key r :
  WalletPriv w = Some key ->
  SignTransaction w hash msgtx = Returns r ->
  signAttestation w msgtx sigs hash
  = match r with
    | (_, _, Some errSign) => Returns (None, Some errSign)
    | (Some signedMsgTx, redeemScript, None) =>
        combine_sigs w signedMsgTx redeemScript sigs
    | (None, _, None) => Panics
    end.
Proof.
  intros Hpriv Hsign. unfold signAttestation.
  assert (Hscript : exists rs, GetScriptFromHash w hash = Returns rs).
  { unfold SignTransaction in Hsign.
    destruct (GetKeyFromHash w hash); try discriminate.
    cbn [outcome_bind] in Hsign.
    destruct (GetScriptFromHash w hash) as [rs| |]; try discriminate.
    now exists rs. }
  destruct Hscript as (rs & ->). cbn [outcome_bind].
  now rewrite Hpriv, Hsign.
Qed.

End SigningProperties.

(** C1.  [signAttestation] on a signing client of a 2-of-3 multisig that
    has received no peer signature: signing yields one local signature,
    fewer than the two required, and the slice expression
    combinedSigs[:numOfSigs] panics instead of returning the partially
    signed transaction without error.  With one peer signature the scriptSig
    is built from the local signature followed by the peer's; a client that
    does not sign returns the transaction unchanged when it has too few
    signatures. *)
Lemma C1_signAttestation_local_sig_too_few :
  let w := example_client (Some 5) [] in
  let mySig := ref_signature "05" in
  let script := ref_redeem_script [5; 6; 7] 2 in
  let signedMsgTx :=
    set_TxIn example_unsigned
      [set_SignatureScript example_input (ref_CreateScriptSig [mySig] script)]
  in
  numOfSigs w = 2 /\
  @SignTransaction ref_BtcLib ref_Crypto w zeroHash example_unsigned
  = Returns (Some signedMsgTx, ref_hex_EncodeToString script, None) /\
  ref_ParseScriptSig (ref_CreateScriptSig [mySig] script)
  = (mkSlice [mySig] [], script) /\
  @signAttestation ref_BtcLib ref_Crypto w example_unsigned [] zeroHash
  = Panics /\
  @signAttestation ref_BtcLib ref_Crypto w example_unsigned [[x30; x09]]
    zeroHash
  = Returns
      (Some (set_TxIn example_unsigned
               [set_SignatureScript example_input
                  (ref_CreateScriptSig [mySig; [x30; x09]] script)]),
       None) /\
  @signAttestation ref_BtcLib ref_Crypto (example_client None [])
    example_unsigned [[x30; x09]] zeroHash
  = Returns (Some example_unsigned, None).
Proof. vm_compute. repeat split. Qed.

(** ** Attestation client: the subchain walk *)

Section SubchainProperties.
Context `{lib : BtcLib}.

(** More fuel does not change a result. *)
Lemma verifyTxOnSubchain_mono (w : AttestClient) (fuel : nat) :
  forall txid b, verifyTxOnSubchain fuel w txid = Returns b ->
  forall fuel', (fuel <= fuel')%nat ->
  verifyTxOnSubchain fuel' w txid = Returns b.
Proof.
  induction fuel as [|fuel IH]; intros txid b Hrun fuel' Hle;
    [discriminate|].
  destruct fuel' as [|fuel']; [lia|]. cbn [verifyTxOnSubchain] in *.
  destruct (String.eqb _ _); [exact Hrun|].
  destruct (GetRawTransaction _ _) as [txraw|e]; [|exact Hrun].
  destruct (TxIn txraw) as [|txin0 ins]; [discriminate|].
  apply (IH _ _ Hrun). lia.
Qed.

Lemma verifyTxOnSubchain_reaches (w : AttestClient) (n : nat) :
  forall txid g, walk_back n w txid = Some g -> is_genesis w g ->
  verifyTxOnSubchain (S n) w txid = Returns true.
Proof.
  unfold is_genesis.
  induction n as [|n IH]; intros txid g Hwalk Hg.
  - cbn in Hwalk. injection Hwalk as ->. cbn [verifyTxOnSubchain].
    apply String.eqb_eq in Hg. now rewrite Hg.
  - cbn [walk_back] in Hwalk.
    change (verifyTxOnSubchain (S (S n)) w txid)
      with (if String.eqb (Hash_String txid) (txid0 w) then Returns true
            else match GetRawTransaction (MainClient w) txid with
                 | Err _ => Returns false
                 | Ok txraw =>
                     match TxIn txraw with
                     | [] => Panics
                     | txin0 :: _ =>
                         verifyTxOnSubchain (S n) w
                           (OutPoint_Hash (PreviousOutPoint txin0))
                     end
                 end).
    destruct (String.eqb _ _); [reflexivity|].
    destruct (GetRawTransaction _ _) as [txraw|e]; [|discriminate].
    destruct (TxIn txraw) as [|txin0 ins]; [discriminate|].
    now apply (IH _ g).
Qed.

Lemma verifyTxOnSubchain_true (w : AttestClient) (fuel : nat) :
  forall txid, verifyTxOnSubchain fuel w txid = Returns true ->
  reaches_genesis w txid.
Proof.
  induction fuel as [|fuel IH]; intros txid Hrun; [discriminate|].
  cbn [verifyTxOnSubchain] in Hrun.
  destruct (String.eqb _ _) eqn:Hg.
  - exists 0%nat, txid. split; [reflexivity|].
    now apply String.eqb_eq.
  - destruct (GetRawTransaction _ _) as [txraw|e] eqn:Hget; [|discriminate].
    destruct (TxIn txraw) as [|txin0 ins] eqn:Hin; [discriminate|].
    destruct (IH _ Hrun) as (n & g & Hwalk & Hgen).
    exists (S n), g. split; [|exact Hgen].
    cbn [walk_back]. now rewrite Hget, Hin.
Qed.

Lemma verifyTxOnSubchain_fails (w : AttestClient) (n : nat) :
  forall txid t e,
  walk_back n w txid = Some t ->
  GetRawTransaction (MainClient w) t = Err e ->
  (forall k t', (k <= n)%nat -> walk_back k w txid = Some t' ->
                ~ is_genesis w t') ->
  verifyTxOnSubchain (S n) w txid = Returns false.
Proof.
  unfold is_genesis.
  induction n as [|n IH]; intros txid t e Hwalk Hget Hnot.
  - cbn in Hwalk. injection Hwalk as ->. cbn [verifyTxOnSubchain].
    pose proof (Hnot 0%nat t (Nat.le_refl _) eq_refl) as Hne.
    apply String.eqb_neq in Hne. now rewrite Hne, Hget.
  - pose proof (Hnot 0%nat txid ltac:(lia) eq_refl) as Hne.
    apply String.eqb_neq in Hne.
    cbn [walk_back] in Hwalk.
    change (verifyTxOnSubchain (S (S n)) w txid)
      with (if String.eqb (Hash_String txid) (txid0 w) then Returns true
            else match GetRawTransaction (MainClient w) txid with
                 | Err _ => Returns false
                 | Ok txraw =>
                     match TxIn txraw with
                     | [] => Panics
                     | txin0 :: _ =>
                         verifyTxOnSubchain (S n) w
                           (OutPoint_Hash (PreviousOutPoint txin0))
                     end
                 end).
    rewrite Hne.
    destruct (GetRawTransaction (MainClient w) txid) as [txraw|e'] eqn:Hraw;
      [|discriminate].
    destruct (TxIn txraw) as [|txin0 ins] eqn:Hin; [discriminate|].
    apply (IH _ t e Hwalk Hget). intros k t' Hk Hwalk'.
    apply (Hnot (S k) t'); [lia|].
    cbn [walk_back]. now rewrite Hraw, Hin.
Qed.

Lemma verifyTxOnSubchain_false (w : AttestClient) (fuel : nat) :
  forall txid, verifyTxOnSubchain fuel w txid = Returns false ->
  walk_fails w txid.
Proof.
  induction fuel as [|fuel IH]; intros txid Hrun; [discriminate|].
  cbn [verifyTxOnSubchain] in Hrun.
  destruct (String.eqb _ _) eqn:Hg; [discriminate|].
  apply String.eqb_neq in Hg.
  destruct (GetRawTransaction _ _) as [txraw|e] eqn:Hget.
  - destruct (TxIn txraw) as [|txin0 ins] eqn:Hin; [discriminate|].
    destruct (IH _ Hrun) as (n & t & e & Hwalk & Hfail & Hnot).
    exists (S n), t, e. split; [|split; [exact Hfail|]].
    + cbn [walk_back]. now rewrite Hget, Hin.
    + intros k t' Hk Hwalk'. destruct k as [|k].
      * cbn in Hwalk'. injection Hwalk' as <-. exact Hg.
      * cbn [walk_back] in Hwalk'. rewrite Hget, Hin in Hwalk'.
        apply (Hnot k t'); [lia|exact Hwalk'].
  - exists 0%nat, txid, e. split; [reflexivity|]. split; [exact Hget|].
    intros k t' Hk Hwalk'. assert (k = 0)%nat as -> by lia.
    cbn in Hwalk'. injection Hwalk' as <-. exact Hg.
Qed.

(** The loop of [findLastUnspent] stops at the first output on the
    subchain. *)
Lemma findLastUnspent_loop_first (w : AttestClient)
    (pre : list ListUnspentResult) vout post :
  Forall (off_subchain w) pre -> on_subchain w vout ->
  exists fuel, forall fuel', (fuel <= fuel')%nat ->
    findLastUnspent_loop fuel' w (pre ++ vout :: post)
    = Returns (true, vout, None).
Proof.
  intros Hpre (txhash & Hparse & n & g & Hwalk & Hg).
  induction Hpre as [|v pre (h & Hparse' & m & t & e & Hw & Hf & Hn) _ IH].
  - exists (S n). intros fuel' Hle. cbn [app findLastUnspent_loop].
    rewrite Hparse.
    rewrite (verifyTxOnSubchain_mono w (S n) txhash true
               (verifyTxOnSubchain_reaches w n txhash g Hwalk Hg) fuel' Hle).
    reflexivity.
  - destruct IH as (fuel & IH). exists (Nat.max fuel (S m)).
    intros fuel' Hle.
    change ((v :: pre) ++ vout :: post) with (v :: (pre ++ vout :: post)).
    cbn [findLastUnspent_loop]. rewrite Hparse'.
    rewrite (verifyTxOnSubchain_mono w (S m) h false
               (verifyTxOnSubchain_fails w m h t e Hw Hf Hn) fuel')
      by lia.
    cbn [outcome_bind]. apply IH. lia.
Qed.

(** With no output on the subchain the loop reports none. *)
Lemma findLastUnspent_loop_none (w : AttestClient)
    (unspent : list ListUnspentResult) :
  Forall (off_subchain w) unspent ->
  exists fuel, forall fuel', (fuel <= fuel')%nat ->
    findLastUnspent_loop fuel' w unspent
    = Returns (false, emptyListUnspentResult, None).
Proof.
  intros Hall.
  induction Hall as [|v rest (h & Hparse & m & t & e & Hw & Hf & Hn) _ IH].
  - exists 0%nat. reflexivity.
  - destruct IH as (fuel & IH). exists (Nat.max fuel (S m)).
    intros fuel' Hle. cbn [findLastUnspent_loop]. rewrite Hparse.
    rewrite (verifyTxOnSubchain_mono w (S m) h false
               (verifyTxOnSubchain_fails w m h t e Hw Hf Hn) fuel')
      by lia.
    cbn [outcome_bind]. apply IH. lia.
Qed.

(** C9.  [verifyTxOnSubchain] returns true if and only if the walk from the
    txid along the previous outpoint of the first input reaches the genesis
    txid, and returns false whenever the walk comes to a transaction whose
    fetch fails; [findLastUnspent] returns the first listed unspent output
    whose txid satisfies the walk, and (false, empty result, nil) when none
    does. *)
Theorem C9_subchain_walk (w : AttestClient) :
  (forall txid,
     (exists fuel, verifyTxOnSubchain fuel w txid = Returns true)
     <-> reaches_genesis w txid) /\
  (forall txid,
     reaches_genesis w txid ->
     exists fuel, forall fuel', (fuel <= fuel')%nat ->
       verifyTxOnSubchain fuel' w txid = Returns true) /\
  (forall txid,
     walk_fails w txid ->
     exists fuel, forall fuel', (fuel <= fuel')%nat ->
       verifyTxOnSubchain fuel' w txid = Returns false) /\
  (forall unspent pre vout post,
     ListUnspent (MainClient w) = Ok unspent ->
     unspent = pre ++ vout :: post ->
     Forall (off_subchain w) pre -> on_subchain w vout ->
     exists fuel, forall fuel', (fuel <= fuel')%nat ->
       findLastUnspent fuel' w = Returns (true, vout, None)) /\
  (forall unspent,
     ListUnspent (MainClient w) = Ok unspent ->
     Forall (off_subchain w) unspent ->
     exists fuel, forall fuel', (fuel <= fuel')%nat ->
       findLastUnspent fuel' w
       = Returns (false, emptyListUnspentResult, None)).
Proof.
  split; [|split; [|split; [|split]]].
  - intros txid. split.
    + intros (fuel & Hrun). exact (verifyTxOnSubchain_true w fuel txid Hrun).
    + intros (n & g & Hwalk & Hg). exists (S n).
      exact (verifyTxOnSubchain_reaches w n txid g Hwalk Hg).
  - intros txid (n & g & Hwalk & Hg). exists (S n). intros fuel' Hle.
    exact (verifyTxOnSubchain_mono w (S n) txid true
             (verifyTxOnSubchain_reaches w n txid g Hwalk Hg) fuel' Hle).
  - intros txid (n & t & e & Hwalk & Hfail & Hnot). exists (S n).
    intros fuel' Hle.
    exact (verifyTxOnSubchain_mono w (S n) txid false
             (verifyTxOnSubchain_fails w n txid t e Hwalk Hfail Hnot)
             fuel' Hle).
  - intros unspent pre vout post Hlist -> Hpre Hon.
    destruct (findLastUnspent_loop_first w pre vout post Hpre Hon)
      as (fuel & Hloop).
    exists fuel. intros fuel' Hle. unfold findLastUnspent. rewrite Hlist.
    rewrite length_app. cbn [length].
    replace (0 <? length pre + S (length post))%nat with true
      by (symmetry; apply Nat.ltb_lt; lia).
    now apply Hloop.
  - intros unspent Hlist Hall.
    destruct (findLastUnspent_loop_none w unspent Hall) as (fuel & Hloop).
    exists fuel. intros fuel' Hle. unfold findLastUnspent. rewrite Hlist.
    destruct (0 <? length unspent)%nat eqn:Hlen; [now apply Hloop|].
    reflexivity.
Qed.

End SubchainProperties.

Lemma C9_subchain_walk_witness :
  let unspent := [example_stray_unspent; example_tip_unspent] in
  let w := example_client None unspent in
  @reaches_genesis ref_BtcLib w example_txid2 /\
  @verifyTxOnSubchain ref_BtcLib 3 w example_txid2 = Returns true /\
  @verifyTxOnSubchain ref_BtcLib 3 w example_hash = Returns false /\
  exists fuel, forall fuel', (fuel <= fuel')%nat ->
    @findLastUnspent ref_BtcLib fuel' w
    = Returns (true, example_tip_unspent, None).
Proof.
  intros unspent w.
  destruct (@C9_subchain_walk ref_BtcLib w) as (_ & _ & _ & Hfirst & _).
  assert (Hreach : @reaches_genesis ref_BtcLib w example_txid2).
  { exists 2%nat, example_txid0. split; reflexivity. }
  split; [exact Hreach|]. split; [reflexivity|]. split; [reflexivity|].
  apply (Hfirst unspent [example_stray_unspent] example_tip_unspent []
           eq_refl eq_refl).
  - constructor; [|constructor].
    exists example_hash. split; [reflexivity|].
    exists 0%nat, example_hash,
      "No information available about transaction"%string.
    split; [reflexivity|]. split; [reflexivity|].
    intros k t' Hk Hwalk. assert (k = 0)%nat as -> by lia.
    cbn in Hwalk. injection Hwalk as <-. unfold is_genesis.
    vm_compute. discriminate.
  - exists example_txid2. split; [reflexivity|exact Hreach].
Defined.

(** ** Signer framing: arbitrary payloads *)

Lemma byte_of_len_of_byte (b : byte) : byte_of_len (Byte.to_nat b) = b.
Proof.
  unfold byte_of_len. pose proof (Byte.to_nat_bounded b).
  rewrite Nat.mod_small by lia. now rewrite Byte.of_to_nat.
Qed.

(** From any read position the loop reads whole frames and stops at the end
    of the payload or at a truncated frame. *)
Lemma unserialize_loop_any (data : list byte) (fuel : nat) :
  forall it dataList,
  (it <= length data)%nat -> (length data - it <= fuel)%nat ->
  exists chunks rest,
    unserialize_loop fuel data it dataList = dataList ++ chunks /\
    Forall (fun x => (length x <= 255)%nat) chunks /\
    drop it data = concat (map frame chunks) ++ rest /\
    truncated_frame rest.
Proof.
  induction fuel as [|fuel IH]; intros it dataList Hit Hfuel.
  - exists [], []. cbn [unserialize_loop map concat app].
    rewrite app_nil_r, drop_ge by lia.
    repeat split; [constructor|now left].
  - cbn [unserialize_loop].
    destruct (Nat.ltb_spec it (length data)) as [Hlt|Hge].
    2: { exists [], []. cbn [map concat app].
         rewrite app_nil_r, drop_ge by lia.
         repeat split; [constructor|now left]. }
    destruct (data !! it) as [txSize|] eqn:Hlook.
    2: { apply lookup_ge_None in Hlook. lia. }
    pose proof (drop_S data txSize it Hlook) as Hdrop.
    destruct (Nat.ltb_spec (length data) (Byte.to_nat txSize + 1 + it))
      as [Hshort|Hfits].
    + exists [], (drop it data). cbn [map concat app].
      rewrite app_nil_r. repeat split; [constructor|].
      right. exists txSize, (drop (S it) data). split; [exact Hdrop|].
      rewrite length_drop. lia.
    + set (n := Byte.to_nat txSize) in *.
      set (dataX := take n (drop (it + 1) data)).
      assert (HlenX : length dataX = n).
      { unfold dataX. rewrite length_take, length_drop. lia. }
      destruct (IH (it + (1 + n))%nat (dataList ++ [dataX]))
        as (chunks & rest & Hrun & Hall & Hrest & Htrunc); [lia|lia|].
      exists (dataX :: chunks), rest.
      split; [now rewrite Hrun, <- app_assoc|].
      split.
      { constructor; [|exact Hall]. rewrite HlenX. unfold n.
        apply Byte.to_nat_bounded. }
      split; [|exact Htrunc].
      cbn [map concat]. unfold frame at 1. rewrite HlenX. unfold n at 1.
      rewrite byte_of_len_of_byte, Hdrop. cbn [app]. f_equal.
      rewrite <- app_assoc, <- Hrest.
      unfold dataX. replace (it + 1)%nat with (S it) by lia.
      replace (it + (1 + n))%nat with (S it + n)%nat by lia.
      rewrite <- drop_drop. symmetry. apply take_drop.
Qed.

Lemma UnserializeBytes_any (data : list byte) :
  Forall (fun x => (length x <= 255)%nat) (UnserializeBytes data) /\
  exists rest,
    data = SerializeBytes (UnserializeBytes data) ++ rest /\
    truncated_frame rest.
Proof.
  rewrite SerializeBytes_frames. unfold UnserializeBytes.
  destruct (Nat.eqb_spec (length data) 0) as [E|_].
  - split; [constructor|]. exists []. split; [|now left].
    destruct data; [reflexivity|discriminate].
  - destruct (unserialize_loop_any data (length data) 0 [])
      as (chunks & rest & Hrun & Hall & Hrest & Htrunc); [lia|lia|].
    rewrite Hrun. cbn [app]. split; [exact Hall|].
    exists rest. split; [exact Hrest|exact Htrunc].
Qed.

Lemma UnserializeBytes_frames (xs : list (list byte)) :
  Forall (fun x => (length x <= 255)%nat) xs ->
  UnserializeBytes (concat (map frame xs)) = xs.
Proof.
  intros Hall. unfold UnserializeBytes.
  destruct (Nat.eqb_spec (length (concat (map frame xs))) 0) as [E|_].
  - pose proof (frames_length xs). destruct xs; [reflexivity|].
    cbn [length] in *. lia.
  - apply (unserialize_loop_frames xs _ [] [] Hall), frames_length.
Qed.

(** X1.  On every payload, well formed or not, [UnserializeBytes] returns
    chunks of at most 255 bytes whose serialization is a prefix of the
    payload, and what it leaves unread is empty or a truncated frame (a
    length byte announcing more bytes than follow). *)
Theorem X1_UnserializeBytes_longest_prefix (data : list byte) :
  Forall (fun x => (length x <= 255)%nat) (UnserializeBytes data) /\
  exists rest,
    data = SerializeBytes (UnserializeBytes data) ++ rest /\
    truncated_frame rest.
Proof. exact (UnserializeBytes_any data). Qed.

(** X2.  Decoding normalizes: serializing what [UnserializeBytes] returned
    and decoding again gives the same chunks, for every payload. *)
Theorem X2_UnserializeBytes_idempotent (data : list byte) :
  UnserializeBytes (SerializeBytes (UnserializeBytes data))
  = UnserializeBytes data.
Proof.
  rewrite SerializeBytes_frames.
  apply UnserializeBytes_frames, UnserializeBytes_any.
Qed.

(** X3.  The bound of 255 bytes is necessary: a list that survives the
    round trip has no chunk longer than 255 bytes, because the length byte
    keeps only the low eight bits of a length. *)
Theorem X3_round_trip_needs_short_chunks (xs : list (list byte)) :
  UnserializeBytes (SerializeBytes xs) = xs ->
  Forall (fun x => (length x <= 255)%nat) xs.
Proof.
  intros Hrt. rewrite <- Hrt. apply UnserializeBytes_any.
Qed.

Lemma X3_round_trip_needs_short_chunks_witness :
  UnserializeBytes (SerializeBytes [[xaa]; []]) = [[xaa]; []] /\
  Forall (fun x : list byte => (length x <= 255)%nat) [[xaa]; []].
Proof.
  split; [reflexivity|].
  apply X3_round_trip_needs_short_chunks. reflexivity.
Defined.

(** X4.  Serialization is a homomorphism for concatenation, and the payload
    holds one length byte per chunk besides the chunks' bytes. *)
Theorem X4_SerializeBytes_app (xs ys : list (list byte)) :
  SerializeBytes (xs ++ ys) = SerializeBytes xs ++ SerializeBytes ys /\
  length (SerializeBytes xs)
  = (length xs + length (concat xs))%nat.
Proof.
  rewrite !SerializeBytes_frames. split.
  - now rewrite map_app, concat_app.
  - induction xs as [|x xs IH]; [reflexivity|].
    cbn [map concat length]. rewrite !length_app, IH.
    unfold frame. cbn [length]. lia.
Qed.

(** ** Signatures from the subscribers' messages *)

Lemma sigs_of_input_omap (msgs : list (list (list byte))) (i : nat) :
  forall row,
  sigs_of_input msgs i row = row ++ omap (fun m => m !! i) msgs.
Proof.
  unfold sigs_of_input.
  induction msgs as [|m msgs IH]; intros row.
  - cbn. now rewrite app_nil_r.
  - cbn [fold_left]. rewrite IH.
    change (omap (fun m0 : list (list byte) => m0 !! i) (m :: msgs))
      with (match m !! i with
            | Some x => x :: omap (fun m0 : list (list byte) => m0 !! i) msgs
            | None => omap (fun m0 : list (list byte) => m0 !! i) msgs
            end).
    destruct (Nat.ltb_spec i (length m)) as [Hlt|Hge].
    + destruct (lookup_lt_is_Some_2 m i Hlt) as [x Hx].
      rewrite nth_lookup, Hx. cbn. now rewrite <- app_assoc.
    + now rewrite (lookup_ge_None_2 m i Hge).
Qed.

Lemma getSigs_loop_spec (msgs : list (list (list byte))) (count : nat) :
  forall i sigs,
  (i + count <= length sigs)%nat ->
  length (getSigs_loop count i msgs sigs) = length sigs /\
  forall k,
    getSigs_loop count i msgs sigs !! k
    = if bool_decide (i <= k < i + count)%nat
      then Some (nth k sigs [] ++ omap (fun m => m !! k) msgs)
      else sigs !! k.
Proof.
  induction count as [|count IH]; intros i sigs Hlen.
  - cbn [getSigs_loop]. split; [reflexivity|]. intros k.
    rewrite bool_decide_eq_false_2 by lia. reflexivity.
  - cbn [getSigs_loop].
    set (sigs' := <[i := sigs_of_input msgs i (nth i sigs [])]> sigs).
    assert (Hlen' : length sigs' = length sigs) by apply length_insert.
    destruct (IH (S i) sigs') as [IHlen IHk]; [lia|].
    split; [congruence|]. intros k. rewrite IHk.
    destruct (decide (k = i)) as [->|Hne].
    + rewrite bool_decide_eq_false_2 by lia.
      rewrite bool_decide_eq_true_2 by lia.
      unfold sigs'. rewrite list_lookup_insert_eq by lia.
      now rewrite sigs_of_input_omap.
    + unfold sigs'.
      destruct (decide (S i <= k < S i + count)%nat) as [Hin|Hout].
      * rewrite !bool_decide_eq_true_2 by lia.
        now rewrite !nth_lookup, list_lookup_insert_ne by lia.
      * rewrite !bool_decide_eq_false_2 by lia.
        now rewrite list_lookup_insert_ne by lia.
Qed.

Lemma getSigsFromMsgs_rows (msgs : list (list (list byte))) (n : Z) :
  0 <= n ->
  exists sigs,
    getSigsFromMsgs msgs n = Returns sigs /\
    length sigs = Z.to_nat n /\
    forall i, (i < Z.to_nat n)%nat ->
              sigs !! i = Some (omap (fun m => m !! i) msgs).
Proof.
  intros Hn. unfold getSigsFromMsgs.
  destruct (Z.eqb_spec n 0) as [->|Hnz].
  - exists []. split; [reflexivity|]. split; [reflexivity|].
    intros i Hi. cbn in Hi. lia.
  - destruct (Z.ltb_spec n 0); [lia|].
    destruct (getSigs_loop_spec msgs (Z.to_nat n) 0
                (replicate (Z.to_nat n) []))
      as [Hlen Hk]; [rewrite length_replicate; lia|].
    eexists. split; [reflexivity|].
    rewrite length_replicate in Hlen. split; [exact Hlen|].
    intros i Hi. rewrite Hk, bool_decide_eq_true_2 by lia.
    rewrite nth_lookup, lookup_replicate_2 by lia. reflexivity.
Qed.

(** X5.  For a non-negative number of inputs [getSigsFromMsgs] returns one
    row per input, and the row of input [i] holds the [i]-th signature of
    every message that has one, in the order of the messages; a negative
    number of inputs panics and zero gives the empty list. *)
Theorem X5_getSigsFromMsgs_rows (msgs : list (list (list byte))) (n : Z) :
  (0 <= n ->
   exists sigs,
     getSigsFromMsgs msgs n = Returns sigs /\
     length sigs = Z.to_nat n /\
     forall i, (i < Z.to_nat n)%nat ->
               sigs !! i = Some (omap (fun m => m !! i) msgs)) /\
  (n < 0 -> getSigsFromMsgs msgs n = Panics) /\
  getSigsFromMsgs msgs 0 = Returns [].
Proof.
  split; [apply getSigsFromMsgs_rows|]. split; [|reflexivity].
  intros Hneg. unfold getSigsFromMsgs.
  destruct (Z.eqb_spec n 0); [lia|].
  destruct (Z.ltb_spec n 0); [reflexivity|lia].
Qed.

Lemma X5_getSigsFromMsgs_rows_witness :
  getSigsFromMsgs [[[x01]; [x02]]; [[x03]]] 2
  = Returns [[[x01]; [x03]]; [[x02]]] /\
  getSigsFromMsgs [[[x01]]] (-1) = Panics.
Proof.
  destruct (X5_getSigsFromMsgs_rows [[[x01]; [x02]]; [[x03]]] 2)
    as [Hrows _].
  destruct (X5_getSigsFromMsgs_rows [[[x01]]] (-1)) as (_ & Hneg & _).
  split; [|apply Hneg; lia].
  destruct (Hrows ltac:(lia)) as (sigs & Hrun & _). reflexivity.
Defined.

Lemma omap_lookup_all (msgs : list (list (list byte))) (i : nat) :
  Forall (fun m => (i < length m)%nat) msgs ->
  length (omap (fun m => m !! i) msgs) = length msgs /\
  forall j, omap (fun m => m !! i) msgs !! j = msgs !! j ≫= (fun m => m !! i).
Proof.
  induction 1 as [|m msgs Hm _ [IHlen IHj]].
  - split; [reflexivity|]. intros j. reflexivity.
  - change (omap (fun m0 : list (list byte) => m0 !! i) (m :: msgs))
      with (match m !! i with
            | Some x => x :: omap (fun m0 : list (list byte) => m0 !! i) msgs
            | None => omap (fun m0 : list (list byte) => m0 !! i) msgs
            end).
    destruct (lookup_lt_is_Some_2 m i Hm) as [x Hx]. rewrite Hx.
    split; [cbn [length]; now rewrite IHlen|].
    intros [|j]; cbn; [now rewrite Hx|apply IHj].
Qed.

(** X6.  When every message holds exactly [n > 0] signatures,
    [getSigsFromMsgs] transposes: row [i] has one signature per message and
    its [j]-th signature is the [i]-th signature of message [j]. *)
Theorem X6_getSigsFromMsgs_transpose (msgs : list (list (list byte)))
    (n : Z) :
  0 < n ->
  Forall (fun m => length m = Z.to_nat n) msgs ->
  exists sigs,
    getSigsFromMsgs msgs n = Returns sigs /\
    length sigs = Z.to_nat n /\
    forall i, (i < Z.to_nat n)%nat ->
      exists row,
        sigs !! i = Some row /\ length row = length msgs /\
        forall j, row !! j = msgs !! j ≫= (fun m => m !! i).
Proof.
  intros Hn Hall.
  destruct (getSigsFromMsgs_rows msgs n ltac:(lia))
    as (sigs & Hrun & Hlen & Hrows).
  exists sigs. split; [exact Hrun|]. split; [exact Hlen|].
  intros i Hi. exists (omap (fun m => m !! i) msgs).
  split; [now apply Hrows|].
  apply omap_lookup_all. eapply Forall_impl; [exact Hall|].
  cbn. intros m Hm. lia.
Qed.

Lemma X6_getSigsFromMsgs_transpose_witness :
  let msgs := [[[x01]; [x02]]; [[x03]; [x04]]; [[x05]; [x06]]] in
  0 < 2 /\
  Forall (fun m : list (list byte) => length m = Z.to_nat 2) msgs /\
  exists sigs,
    getSigsFromMsgs msgs 2 = Returns sigs /\
    length sigs = Z.to_nat 2 /\
    forall i, (i < Z.to_nat 2)%nat ->
      exists row,
        sigs !! i = Some row /\ length row = length msgs /\
        forall j, row !! j = msgs !! j ≫= (fun m => m !! i).
Proof.
  intros msgs.
  assert (H0 : 0 < 2) by lia.
  assert (Hall : Forall (fun m : list (list byte) => length m = Z.to_nat 2)
                   msgs) by (repeat constructor).
  split; [exact H0|]. split; [exact Hall|].
  exact (X6_getSigsFromMsgs_transpose msgs 2 H0 Hall).
Defined.

Lemma updateNumOfTxInputs_max (msgSplit : list (list byte)) (n : Z) :
  updateNumOfTxInputs msgSplit n = Z.max n (Z.of_nat (length msgSplit)).
Proof.
  unfold updateNumOfTxInputs.
  destruct (Z.ltb_spec n (Z.of_nat (length msgSplit))); lia.
Qed.

(** The messages kept and the number of inputs after the subscribers'
    latest messages have been recorded. *)
Lemma GetSigs_record_fold (subMsgs : list (list (list byte))) :
  forall msgs n, 0 <= n ->
  exists n',
    fold_left GetSigs_record subMsgs (msgs, n)
    = (msgs ++ contributing subMsgs, n') /\
    n <= n' /\
    (forall m, m ∈ contributing subMsgs -> Z.of_nat (length m) <= n') /\
    (n' = n \/
     exists m, m ∈ contributing subMsgs /\ Z.of_nat (length m) = n').
Proof.
  induction subMsgs as [|subMsg subMsgs IH]; intros msgs n Hn.
  - exists n. cbn. rewrite app_nil_r. repeat split; [lia| |now left].
    intros m Hm. inversion Hm.
  - cbn [fold_left GetSigs_record]. unfold contributing.
    cbn [List.filter]. fold (contributing subMsgs).
    destruct (Nat.ltb_spec 0 (length subMsg)) as [Hpos|Hzero].
    + rewrite updateNumOfTxInputs_max.
      destruct (IH (msgs ++ [subMsg])
                  (Z.max n (Z.of_nat (length subMsg))) ltac:(lia))
        as (n' & Hrun & Hle & Hall & Hmax).
      exists n'. split; [now rewrite Hrun, <- app_assoc|].
      split; [lia|]. split.
      * intros m Hm. apply elem_of_cons in Hm as [->|Hm]; [lia|].
        now apply Hall.
      * destruct Hmax as [->|(m & Hm & Elen)].
        -- destruct (Z.max_spec n (Z.of_nat (length subMsg)))
             as [[_ ->]|[_ ->]]; [|now left].
           right. exists subMsg. split; [left|reflexivity].
        -- right. exists m. split; [now right|exact Elen].
    + destruct (IH msgs n Hn) as (n' & Hrun & Hle & Hall & Hmax).
      exists n'. repeat split; assumption.
Qed.

(** X7.  [GetSigs], once each subscriber's latest message has been read,
    never panics; subscribers without message or with an empty message
    contribute nothing; it returns as many rows as the longest contributing
    message has signatures, every row holds at least one signature and the
    first row holds one signature per contributing subscriber. *)
Theorem X7_GetSigs_of_latest (latest : list (option (list byte))) :
  let msgs := contributing (decoded_latest latest) in
  exists sigs,
    GetSigs_of_latest latest = Returns sigs /\
    (forall m, m ∈ msgs -> (length m <= length sigs)%nat) /\
    (sigs <> [] -> exists m, m ∈ msgs /\ length m = length sigs) /\
    (forall i, (i < length sigs)%nat ->
               sigs !! i = Some (omap (fun m => m !! i) msgs)) /\
    (forall row, row ∈ sigs -> row <> []) /\
    (forall row, sigs !! 0%nat = Some row -> length row = length msgs).
Proof.
  intros msgs. unfold GetSigs_of_latest. fold (decoded_latest latest).
  destruct (GetSigs_record_fold (decoded_latest latest) [] 0 ltac:(lia))
    as (n & Hfold & Hn & Hall & Hmax).
  rewrite Hfold. cbn [app]. fold msgs in Hall, Hmax |- *.
  destruct (getSigsFromMsgs_rows msgs n Hn) as (sigs & Hrun & Hlen & Hrows).
  exists sigs. split; [exact Hrun|].
  assert (Hlong : forall i, (i < length sigs)%nat ->
                  exists m, m ∈ msgs /\ (i < length m)%nat).
  { intros i Hi. destruct Hmax as [->|(m & Hm & Elen)].
    - rewrite Hlen in Hi. cbn in Hi. lia.
    - exists m. split; [exact Hm|]. lia. }
  split; [intros m Hm; specialize (Hall m Hm); lia|].
  split.
  { intros Hne. destruct Hmax as [->|(m & Hm & Elen)].
    - destruct sigs; [contradiction|discriminate].
    - exists m. split; [exact Hm|]. lia. }
  split; [intros i Hi; apply Hrows; lia|].
  split.
  - intros row Hrow Hnil. subst row.
    apply list_elem_of_lookup in Hrow as (i & Hi).
    pose proof (lookup_lt_Some _ _ _ Hi) as Hlt.
    rewrite (Hrows i ltac:(lia)) in Hi. injection Hi as Hi.
    destruct (Hlong i Hlt) as (m & Hm & Hmi).
    destruct (lookup_lt_is_Some_2 m i Hmi) as [x Hx].
    assert (Hin : x ∈ omap (fun m0 : list (list byte) => m0 !! i) msgs).
    { apply list_elem_of_omap. now exists m. }
    unfold Sig in *. rewrite Hi in Hin. inversion Hin.
  - intros row Hrow.
    pose proof (lookup_lt_Some _ _ _ Hrow) as Hlt.
    rewrite (Hrows 0%nat ltac:(lia)) in Hrow. injection Hrow as <-.
    apply omap_lookup_all. unfold msgs, contributing.
    apply Forall_forall. intros m Hm. apply list_elem_of_In in Hm.
    apply filter_In in Hm as [_ Hm]. now apply Nat.ltb_lt.
Qed.

(** ** Fee controller: further properties *)

Lemma fee_calls_limits (cs : list FeeCall) : forall a,
  minFee (fee_calls a cs) = minFee a /\
  maxFee (fee_calls a cs) = maxFee a /\
  feeIncrement (fee_calls a cs) = feeIncrement a.
Proof.
  induction cs as [|c cs IH]; intros a; [auto|].
  change (fee_calls a (c :: cs)) with (fee_calls (fee_call a c) cs).
  destruct (IH (fee_call a c)) as (E1 & E2 & E3). rewrite E1, E2, E3.
  destruct c as [useMinimum resp|]; unfold fee_call.
  - apply ResetFee_limits.
  - apply BumpFee_limits.
Qed.

Lemma ResetFee_same_limits (a b : AttestFees) useMinimum resp :
  minFee a = minFee b -> maxFee a = maxFee b ->
  feeIncrement a = feeIncrement b ->
  ResetFee a useMinimum resp = ResetFee b useMinimum resp.
Proof.
  intros E1 E2 E3. unfold ResetFee, set_currentFee.
  now rewrite E1, E2, E3.
Qed.

Lemma bumps_spec (n : nat) : forall a,
  fees_ok a -> feeIncrement a <= int_max - DefaultMaxFee ->
  fees_ok (Nat.iter n BumpFee a) /\
  minFee (Nat.iter n BumpFee a) = minFee a /\
  maxFee (Nat.iter n BumpFee a) = maxFee a /\
  feeIncrement (Nat.iter n BumpFee a) = feeIncrement a /\
  currentFee (Nat.iter n BumpFee a)
  = Z.min (currentFee a + Z.of_nat n * feeIncrement a) (maxFee a).
Proof.
  induction n as [|n IH]; intros a Hok Hinc.
  - change (Nat.iter 0 BumpFee a) with a. split; [exact Hok|].
    repeat (split; [reflexivity|]).
    destruct Hok as (H1 & H2 & H3 & H4 & H5).
    change (Z.of_nat 0) with 0. lia.
  - change (Nat.iter (S n) BumpFee a) with (BumpFee (Nat.iter n BumpFee a)).
    destruct (IH a Hok Hinc) as (Hokn & Emin & Emax & Einc & Ecur).
    set (b := Nat.iter n BumpFee a) in *.
    assert (Hincb : feeIncrement b <= int_max - DefaultMaxFee)
      by now rewrite Einc.
    pose proof (BumpFee_ok b Hokn Hincb) as Hok'.
    destruct (BumpFee_limits b) as (Emin' & Emax' & Einc').
    split; [exact Hok'|].
    split; [congruence|]. split; [congruence|]. split; [congruence|].
    destruct Hokn as (H1 & H2 & H3 & H4 & H5).
    rewrite BumpFee_in_range
      by (unfold in_int_range, int_min, int_max, DefaultMaxFee in *; lia).
    rewrite Ecur, Einc, Emax.
    rewrite Einc in H4. lia.
Qed.

(** X8.  For every configuration and every answer of the fee API,
    [NewAttestFees] returns a state with 0 < minFee < maxFee <= 100,
    a positive increment and minFee <= currentFee <= maxFee. *)
Theorem X8_NewAttestFees_invariant (feesConfig : FeesConfig)
    (resp : ApiResponse) :
  let a := NewAttestFees feesConfig resp in
  0 < minFee a /\ minFee a < maxFee a /\ maxFee a <= DefaultMaxFee /\
  0 < feeIncrement a /\ minFee a <= currentFee a <= maxFee a.
Proof. exact (NewAttestFees_ok feesConfig resp). Qed.

(** X9.  When the increment is at most 2^63-1-100, every sequence of
    [ResetFee] and [BumpFee] calls keeps the limits and the invariant
    minFee <= currentFee <= maxFee. *)
Theorem X9_fee_calls_invariant (a : AttestFees) (cs : list FeeCall) :
  fees_ok a -> feeIncrement a <= int_max - DefaultMaxFee ->
  fees_ok (fee_calls a cs) /\
  minFee (fee_calls a cs) = minFee a /\
  maxFee (fee_calls a cs) = maxFee a /\
  feeIncrement (fee_calls a cs) = feeIncrement a.
Proof.
  intros Hok Hinc. split; [now apply fee_calls_ok|apply fee_calls_limits].
Qed.

Lemma X9_fee_calls_invariant_witness :
  let a := NewAttestFees (mkFeesConfig 5 80 5) ApiRequestFailed in
  let cs := [CallBumpFee; CallResetFee [] ApiDecodingFailed; CallBumpFee;
             CallBumpFee; CallResetFee [true] ApiRequestFailed] in
  fees_ok a /\ feeIncrement a <= int_max - DefaultMaxFee /\
  fees_ok (fee_calls a cs).
Proof.
  intros a cs.
  assert (Hok : fees_ok a) by (vm_compute; repeat split; discriminate).
  assert (Hinc : feeIncrement a <= int_max - DefaultMaxFee)
    by (vm_compute; discriminate).
  split; [exact Hok|]. split; [exact Hinc|].
  exact (proj1 (X9_fee_calls_invariant a cs Hok Hinc)).
Defined.

(** X10.  Under the invariant and the same bound on the increment, [n]
    successive bumps give currentFee = min(currentFee + n * feeIncrement,
    maxFee): the fee never decreases, reaches the maximum and stays
    there. *)
Theorem X10_BumpFee_iterated (a : AttestFees) (n : nat) :
  fees_ok a -> feeIncrement a <= int_max - DefaultMaxFee ->
  currentFee (Nat.iter n BumpFee a)
  = Z.min (currentFee a + Z.of_nat n * feeIncrement a) (maxFee a) /\
  currentFee a <= currentFee (Nat.iter n BumpFee a) /\
  (maxFee a - currentFee a <= Z.of_nat n * feeIncrement a ->
   currentFee (Nat.iter n BumpFee a) = maxFee a).
Proof.
  intros Hok Hinc.
  destruct (bumps_spec n a Hok Hinc) as (_ & _ & _ & _ & Ecur).
  destruct Hok as (H1 & H2 & H3 & H4 & H5).
  rewrite Ecur. split; [reflexivity|]. split; [|lia].
  assert (0 <= Z.of_nat n * feeIncrement a) by nia. lia.
Qed.

Lemma X10_BumpFee_iterated_witness :
  let a := mkAttestFees 5 80 5 70 in
  fees_ok a /\ feeIncrement a <= int_max - DefaultMaxFee /\
  currentFee (Nat.iter 1 BumpFee a) = 75 /\
  currentFee (Nat.iter 3 BumpFee a) = 80.
Proof.
  intros a.
  assert (Hok : fees_ok a) by (vm_compute; repeat split; discriminate).
  assert (Hinc : feeIncrement a <= int_max - DefaultMaxFee)
    by (vm_compute; discriminate).
  split; [exact Hok|]. split; [exact Hinc|].
  split.
  - exact (proj1 (X10_BumpFee_iterated a 1 Hok Hinc)).
  - exact (proj1 (X10_BumpFee_iterated a 3 Hok Hinc)).
Defined.

(** X11.  [ResetFee] forgets the history: after any sequence of calls it
    gives the state it would have given at once, because it reads only the
    limits, which no call changes. *)
Theorem X11_ResetFee_forgets (a : AttestFees) (cs : list FeeCall)
    (useMinimum : list bool) (resp : ApiResponse) :
  ResetFee (fee_calls a cs) useMinimum resp = ResetFee a useMinimum resp.
Proof.
  destruct (fee_calls_limits cs a) as (E1 & E2 & E3).
  now apply ResetFee_same_limits.
Qed.

(** X12.  [ResetFee] on limits with 0 <= minFee <= maxFee: the new fee lies
    within the limits; it is the API's fee when that lies within them; it
    is minFee when the first optional argument is true, whatever the API
    answers, and when the API request fails, its answer does not decode or
    lacks the fee type; only the first optional argument counts. *)
Theorem X12_ResetFee_cases (a : AttestFees) (rest : list bool)
    (resp : ApiResponse) :
  0 <= minFee a <= maxFee a ->
  minFee a <= currentFee (ResetFee a [] resp) <= maxFee a /\
  (minFee a <= getBestFee resp [] <= maxFee a ->
   currentFee (ResetFee a [] resp) = getBestFee resp []) /\
  currentFee (ResetFee a (true :: rest) resp) = minFee a /\
  ResetFee a (false :: rest) resp = ResetFee a [] resp /\
  currentFee (ResetFee a [] ApiRequestFailed) = minFee a /\
  currentFee (ResetFee a [] ApiDecodingFailed) = minFee a /\
  (forall respJson, respJson DefaultBestFeeType = None ->
     currentFee (ResetFee a [] (ApiDecoded respJson)) = minFee a).
Proof.
  intros Hlim.
  assert (Hclamp : forall r,
    currentFee (ResetFee a [] r)
    = Z.max (minFee a) (Z.min (getBestFee r []) (maxFee a))).
  { intros r. apply ResetFee_clamp; [lia|reflexivity]. }
  split; [rewrite Hclamp; lia|].
  split; [intros Hin; rewrite Hclamp; lia|].
  split; [reflexivity|]. split; [reflexivity|].
  split; [apply ResetFee_api_failure; [lia|reflexivity]|].
  split; [apply ResetFee_api_failure; [lia|reflexivity]|].
  intros respJson Hnone. apply ResetFee_api_failure; [lia|].
  apply getBestFee_failure. right. right. now exists respJson.
Qed.

Lemma X12_ResetFee_cases_witness :
  let a := mkAttestFees 5 80 5 40 in
  0 <= minFee a <= maxFee a /\
  currentFee (ResetFee a [] (ApiDecoded (fun _ => Some 200))) <= 80 /\
  currentFee (ResetFee a [true; false] (ApiDecoded (fun _ => Some 200))) = 5.
Proof.
  intros a.
  assert (Hlim : 0 <= minFee a <= maxFee a) by (cbn; lia).
  destruct (X12_ResetFee_cases a [false] (ApiDecoded (fun _ => Some 200))
              Hlim) as (Hin & _ & Hmin & _).
  split; [exact Hlim|]. split; [apply Hin|exact Hmin].
Defined.

(** ** Attestation client: derivation of keys and addresses *)

Section DerivationProperties.
Context `{crypto : Crypto}.

(** X13.  A client without a wallet key has no attestation key at any hash
    and asks for no tweak.  For a signing client the key that
    [GetNextAttestationKey] derives for a non-zero hash is the key that
    [GetKeyFromHash] returns for it; when the tweak fails the former returns
    the error whereas the latter panics. *)
Theorem X13_attestation_key (w : AttestClient) (hash : Hash) :
  (WalletPriv w = None ->
   GetNextAttestationKey w hash = Returns (None, None)) /\
  (forall key, hash <> zeroHash ->
     GetNextAttestationKey w hash = Returns (Some key, None) ->
     GetKeyFromHash w hash = Returns key) /\
  (forall tweakErr, hash <> zeroHash ->
     GetNextAttestationKey w hash = Returns (None, Some tweakErr) ->
     GetKeyFromHash w hash = Panics).
Proof.
  unfold GetNextAttestationKey, GetKeyFromHash.
  split; [intros ->; reflexivity|].
  split.
  - intros key Hnz Hrun. rewrite (Hash_IsEqual_false _ _ Hnz). cbn [negb].
    destruct (WalletPriv w) as [priv|]; [|discriminate].
    destruct (TweakPrivKey _ _ _) as [[k|e]| |]; try discriminate.
    cbn in *. congruence.
  - intros tweakErr Hnz Hrun. rewrite (Hash_IsEqual_false _ _ Hnz).
    cbn [negb].
    destruct (WalletPriv w) as [priv|]; [|discriminate].
    destruct (TweakPrivKey _ _ _) as [[k|e]| |]; try discriminate.
    reflexivity.
Qed.

(** X14.  With a multisig script the next attestation address and its
    redeem script do not depend on the key argument, and for a non-zero hash
    the script that [GetScriptFromHash] returns is the redeem script of the
    address that [GetNextAttestationAddr] derives from that hash. *)
Theorem X14_address_and_script (w : AttestClient) (hash : Hash) :
  pubkeys w <> [] ->
  exists multisigAddr redeemScript,
    (forall key,
       GetNextAttestationAddr w key hash
       = Returns (Some multisigAddr, redeemScript)) /\
    (hash <> zeroHash ->
     GetScriptFromHash w hash = Returns redeemScript).
Proof.
  intros Hpubs.
  destruct (CreateMultisig
              (map (fun pub => TweakPubKey pub (Hash_CloneBytes hash))
                 (pubkeys w))
              (numOfSigs w) (MainChainCfg w)) as [addr rs] eqn:E.
  exists addr, rs.
  assert (Haddr : forall key,
    GetNextAttestationAddr w key hash = Returns (Some addr, rs)).
  { intros key. unfold GetNextAttestationAddr.
    destruct (pubkeys w) as [|pub pubs] eqn:Ep; [contradiction|].
    cbn [length Nat.ltb Nat.leb]. now rewrite E. }
  split; [exact Haddr|].
  intros Hnz. unfold GetScriptFromHash.
  rewrite (Hash_IsEqual_false _ _ Hnz). cbn [negb].
  now rewrite Haddr.
Qed.

End DerivationProperties.

Lemma X13_attestation_key_witness :
  let w := example_client (Some 5) [] in
  @GetNextAttestationKey ref_BtcLib ref_Crypto w example_hash
  = Returns (Some 12, None) /\
  @GetKeyFromHash ref_BtcLib ref_Crypto w example_hash = Returns 12.
Proof.
  intros w. split; [reflexivity|].
  apply (@X13_attestation_key ref_BtcLib ref_Crypto w example_hash);
    [discriminate|reflexivity].
Defined.

Lemma X14_address_and_script_witness :
  let w := example_client None [] in
  pubkeys w <> [] /\
  exists multisigAddr redeemScript,
    (forall key,
       @GetNextAttestationAddr ref_BtcLib ref_Crypto w key example_hash
       = Returns (Some multisigAddr, redeemScript)) /\
    (example_hash <> zeroHash ->
     @GetScriptFromHash ref_BtcLib ref_Crypto w example_hash
     = Returns redeemScript).
Proof.
  intros w.
  assert (Hpubs : pubkeys w <> []) by discriminate.
  split; [exact Hpubs|].
  exact (@X14_address_and_script ref_BtcLib ref_Crypto w example_hash Hpubs).
Defined.

(** ** Attestation client: fees taken from the output *)

Lemma wrap_int_sub_l a b : wrap_int (wrap_int a - b) = wrap_int (a - b).
Proof.
  destruct (wrap_int_repr a) as (k & ->).
  replace (a + k * 2 ^ 64 - b) with (a - b + k * 2 ^ 64) by lia.
  apply wrap_int_shift.
Qed.


Section FeeDeductionProperties.
Context `{lib : BtcLib}.

(** [bumpAttestationFees] on a transaction with an input and an output, the
    intermediate wrap-arounds removed. *)
Lemma bumpAttestationFees_eq (w : AttestClient) (msgtx : wire_MsgTx)
    (txin0 : wire_TxIn) (ins : list wire_TxIn)
    (txout0 : wire_TxOut) (outs : list wire_TxOut) :
  TxIn msgtx = txin0 :: ins ->
  TxOut msgtx = txout0 :: outs ->
  let w' := set_Fees w (BumpFee (Fees w)) in
  let cleared := set_TxIn msgtx (set_SignatureScript txin0 [] :: ins) in
  bumpAttestationFees w msgtx
  = Returns
      (w',
       set_TxOut cleared
         (set_Value txout0
            (wrap_int
               (Value txout0
                - (GetFee (Fees w') - GetFee (Fees w))
                  * SerializeSize cleared))
          :: outs),
       None).
Proof.
  intros Hin Hout w' cleared.
  unfold bumpAttestationFees. rewrite Hin. fold w' cleared.
  replace (TxOut cleared) with (txout0 :: outs) by (symmetry; exact Hout).
  rewrite wrap_int_sub_r, <- (wrap_int_sub_r _ (_ * _)), wrap_int_mul_l.
  now rewrite wrap_int_sub_r.
Qed.

(** X15.  [createAttestation] passes an error of [CreateRawTransaction] on
    and panics on a raw transaction without input; on a one-in/one-out raw
    transaction it changes only the sequence of the input, to 0xFFFFFFFD,
    and the value of the output, from which it takes
    feePerByte * SerializeSize in 64-bit arithmetic. *)
Theorem X15_createAttestation_result (w : AttestClient)
    (paytoaddr : Address) (txunspent : ListUnspentResult) :
  let answer :=
    CreateRawTransaction (MainClient w)
      [mkTransactionInput (TxID txunspent) (Vout txunspent)]
      [(paytoaddr, unspent_amount txunspent)] in
  (forall errCreate, answer = Err errCreate ->
     createAttestation w paytoaddr txunspent
     = Returns (None, Some errCreate)) /\
  (forall msgtx, answer = Ok msgtx -> TxIn msgtx = [] ->
     createAttestation w paytoaddr txunspent = Panics) /\
  (forall msgtx txin0 txout0,
     answer = Ok msgtx -> TxIn msgtx = [txin0] -> TxOut msgtx = [txout0] ->
     let fee :=
       GetFee (Fees w)
       * SerializeSize (set_TxIn msgtx [set_Sequence txin0 0xFFFFFFFD]) in
     createAttestation w paytoaddr txunspent
     = Returns
         (Some (mkMsgTx (Version msgtx)
                  [mkTxIn (PreviousOutPoint txin0) (SignatureScript txin0)
                     0xFFFFFFFD]
                  [mkTxOut (wrap_int (Value txout0 - fee)) (PkScript txout0)]
                  (LockTime msgtx)),
          None)).
Proof.
  intros answer. split; [|split].
  - intros errCreate Herr. unfold createAttestation. fold answer.
    now rewrite Herr.
  - intros msgtx Hok Hin. unfold createAttestation. fold answer.
    now rewrite Hok, Hin.
  - intros msgtx txin0 txout0 Hok Hin Hout fee.
    now rewrite (createAttestation_spec w paytoaddr txunspent msgtx txin0
                   txout0 Hok Hin Hout).
Qed.

(** X16.  Creating an attestation and then bumping its fee leaves the
    output with the node's output value minus (bumped fee per byte) *
    SerializeSize, in 64-bit arithmetic: the two deductions add up to one
    fee at the new rate.  The raw transaction is unsigned and the size does
    not depend on the output value. *)
Theorem X16_create_then_bump (w : AttestClient) (paytoaddr : Address)
    (txunspent : ListUnspentResult) (msgtx : wire_MsgTx)
    (txin0 : wire_TxIn) (txout0 : wire_TxOut) :
  CreateRawTransaction (MainClient w)
    [mkTransactionInput (TxID txunspent) (Vout txunspent)]
    [(paytoaddr, unspent_amount txunspent)] = Ok msgtx ->
  TxIn msgtx = [txin0] -> TxOut msgtx = [txout0] ->
  SignatureScript txin0 = [] ->
  let sized := set_TxIn msgtx [set_Sequence txin0 0xFFFFFFFD] in
  (forall v,
     SerializeSize (set_TxOut sized [set_Value txout0 v])
     = SerializeSize sized) ->
  exists tx tx',
    createAttestation w paytoaddr txunspent = Returns (Some tx, None) /\
    bumpAttestationFees w tx
    = Returns (set_Fees w (BumpFee (Fees w)), tx', None) /\
    TxIn tx' = TxIn tx /\
    TxOut tx'
    = [set_Value txout0
         (wrap_int (Value txout0
                    - GetFee (BumpFee (Fees w)) * SerializeSize sized))].
Proof.
  intros Hok Hin Hout Hsig sized Hsize.
  pose proof (createAttestation_spec w paytoaddr txunspent msgtx txin0
                txout0 Hok Hin Hout) as Hcreate.
  cbv zeta in Hcreate. fold sized in Hcreate.
  set (v0 := wrap_int (Value txout0 - GetFee (Fees w) * SerializeSize sized))
    in *.
  set (tx := set_TxOut sized [set_Value txout0 v0]) in *.
  assert (Hcleared :
    set_TxIn tx [set_SignatureScript (set_Sequence txin0 0xFFFFFFFD) []]
    = tx).
  { unfold tx, sized, set_TxIn, set_TxOut, set_SignatureScript,
      set_Sequence. cbn. now rewrite <- Hsig. }
  exists tx. eexists. split; [exact Hcreate|].
  rewrite (bumpAttestationFees_eq w tx (set_Sequence txin0 0xFFFFFFFD) []
             (set_Value txout0 v0) [] eq_refl eq_refl).
  rewrite Hcleared.
  split; [reflexivity|]. split; [reflexivity|].
  unfold set_TxOut, set_Value. cbn [TxOut Value PkScript].
  f_equal. f_equal.
  change (SerializeSize tx)
    with (SerializeSize (set_TxOut sized [set_Value txout0 v0])).
  rewrite Hsize. unfold v0. rewrite wrap_int_sub_l.
  f_equal. cbn [Fees set_Fees]. lia.
Qed.


End FeeDeductionProperties.

Lemma X16_create_then_bump_witness :
  let txunspent :=
    mkListUnspentResult (ref_Hash_String example_txid2) 0 0.5%float in
  let w := example_client None [txunspent] in
  exists tx tx',
    @createAttestation ref_BtcLib w "p2sh:51" txunspent
    = Returns (Some tx, None) /\
    @bumpAttestationFees ref_BtcLib w tx
    = Returns (set_Fees w (BumpFee (Fees w)), tx', None) /\
    TxIn tx' = TxIn tx /\
    map Value (TxOut tx') = [50000000 - 15 * 67].
Proof.
  intros txunspent w.
  destruct (@X16_create_then_bump ref_BtcLib w "p2sh:51"%string txunspent
              (mkMsgTx 2 [mkTxIn (mkOutPoint example_txid2 0) [] 0xFFFFFFFF]
                 [mkTxOut 50000000 (String.list_byte_of_string "p2sh:51")] 0)
              (mkTxIn (mkOutPoint example_txid2 0) [] 0xFFFFFFFF)
              (mkTxOut 50000000 (String.list_byte_of_string "p2sh:51"))
              eq_refl eq_refl eq_refl eq_refl (fun v => eq_refl))
    as (tx & tx' & Hcreate & Hbump & Hin & Hout).
  exists tx, tx'. split; [exact Hcreate|]. split; [exact Hbump|].
  split; [exact Hin|]. rewrite Hout. reflexivity.
Defined.


(** ** Attestation client: what the searches return *)

Section SearchProperties.
Context `{lib : BtcLib}.

Lemma findLastUnspent_loop_sound (w : AttestClient) (fuel : nat)
    (unspent : list ListUnspentResult) :
  forall found vout err,
  findLastUnspent_loop fuel w unspent = Returns (found, vout, err) ->
  err = None /\
  (found = true ->
   exists pre post,
     unspent = pre ++ vout :: post /\ on_subchain w vout /\
     Forall (off_subchain w) pre) /\
  (found = false ->
   vout = emptyListUnspentResult /\ Forall (off_subchain w) unspent).
Proof.
  induction unspent as [|v rest IH]; intros found vout err Hrun.
  - cbn in Hrun. injection Hrun as <- <- <-.
    split; [reflexivity|]. split; [discriminate|].
    intros _. split; [reflexivity|constructor].
  - cbn [findLastUnspent_loop] in Hrun.
    destruct (NewHashFromStr (TxID v)) as [txhash|e] eqn:Hparse;
      [|discriminate].
    destruct (verifyTxOnSubchain fuel w txhash) as [[|]| |] eqn:Hverify;
      cbn [outcome_bind] in Hrun; try discriminate.
    + injection Hrun as <- <- <-. split; [reflexivity|].
      split; [|discriminate]. intros _. exists [], rest.
      split; [reflexivity|]. split; [|constructor].
      exists txhash. split; [exact Hparse|].
      exact (verifyTxOnSubchain_true w fuel txhash Hverify).
    + assert (Hoff : off_subchain w v).
      { exists txhash. split; [exact Hparse|].
        exact (verifyTxOnSubchain_false w fuel txhash Hverify). }
      destruct (IH found vout err Hrun) as (Herr & Htrue & Hfalse).
      split; [exact Herr|]. split.
      * intros Hfound.
        destruct (Htrue Hfound) as (pre & post & -> & Hon & Hpre).
        exists (v :: pre), post. split; [reflexivity|].
        split; [exact Hon|]. now constructor.
      * intros Hfound. destruct (Hfalse Hfound) as [-> Hall].
        split; [reflexivity|]. now constructor.
Qed.

(** X18.  Whatever [findLastUnspent] returns is justified by the node's
    answers: an error is the error of [ListUnspent]; an output reported as
    found is listed, its txid walks back to the genesis txid and the walks
    of all outputs listed before it ended in a failed fetch; when none is
    reported the result is the empty value and every listed walk ended in a
    failed fetch. *)
Theorem X18_findLastUnspent_sound (w : AttestClient) (fuel : nat)
    (found : bool) (vout : ListUnspentResult) (err : option error) :
  findLastUnspent fuel w = Returns (found, vout, err) ->
  match err with
  | Some e =>
      ListUnspent (MainClient w) = Err e /\
      found = false /\ vout = emptyListUnspentResult
  | None =>
      exists unspent,
        ListUnspent (MainClient w) = Ok unspent /\
        if found then
          exists pre post,
            unspent = pre ++ vout :: post /\ on_subchain w vout /\
            Forall (off_subchain w) pre
        else
          vout = emptyListUnspentResult /\ Forall (off_subchain w) unspent
  end.
Proof.
  unfold findLastUnspent. intros Hrun.
  destruct (ListUnspent (MainClient w)) as [unspent|e].
  - assert (Hloop : findLastUnspent_loop fuel w unspent
                    = Returns (found, vout, err)).
    { destruct (0 <? length unspent)%nat eqn:Hlen; [exact Hrun|].
      apply Nat.ltb_ge in Hlen. destruct unspent; [exact Hrun|].
      cbn in Hlen. lia. }
    destruct (findLastUnspent_loop_sound w fuel unspent _ _ _ Hloop)
      as (-> & Htrue & Hfalse).
    exists unspent. split; [reflexivity|].
    destruct found; [now apply Htrue|now apply Hfalse].
  - injection Hrun as <- <- <-. repeat split.
Qed.

(** X19.  [verifyTxOnSubchain] returns false only when the walk came to a
    transaction whose fetch failed before any genesis txid; its answer does
    not depend on how far the recursion was allowed to go; and a txid that
    walks back to genesis has no failing walk. *)
Theorem X19_verifyTxOnSubchain_answers (w : AttestClient) (txid : Hash) :
  (forall fuel, verifyTxOnSubchain fuel w txid = Returns false ->
                walk_fails w txid) /\
  (forall fuel1 fuel2 b1 b2,
     verifyTxOnSubchain fuel1 w txid = Returns b1 ->
     verifyTxOnSubchain fuel2 w txid = Returns b2 -> b1 = b2) /\
  (reaches_genesis w txid -> ~ walk_fails w txid).
Proof.
  assert (Hsame : forall fuel1 fuel2 b1 b2,
     verifyTxOnSubchain fuel1 w txid = Returns b1 ->
     verifyTxOnSubchain fuel2 w txid = Returns b2 -> b1 = b2).
  { intros fuel1 fuel2 b1 b2 H1 H2.
    pose proof (verifyTxOnSubchain_mono w fuel1 txid b1 H1
                  (Nat.max fuel1 fuel2) ltac:(lia)) as E1.
    pose proof (verifyTxOnSubchain_mono w fuel2 txid b2 H2
                  (Nat.max fuel1 fuel2) ltac:(lia)) as E2.
    congruence. }
  split; [intros fuel; apply verifyTxOnSubchain_false|].
  split; [exact Hsame|].
  intros (n & g & Hwalk & Hg) (m & t & e & Hw & Hf & Hn).
  pose proof (verifyTxOnSubchain_reaches w n txid g Hwalk Hg) as Htrue.
  pose proof (verifyTxOnSubchain_fails w m txid t e Hw Hf Hn) as Hfalse.
  discriminate (Hsame _ _ _ _ Htrue Hfalse).
Qed.

Lemma getUnconfirmedTx_loop_sound (w : AttestClient) (fuel : nat)
    (mempool : list Hash) :
  forall found hash err,
  getUnconfirmedTx_loop fuel w mempool = Returns (found, hash, err) ->
  err = None /\
  (found = true ->
   exists pre post,
     mempool = pre ++ hash :: post /\ reaches_genesis w hash /\
     Forall (walk_fails w) pre) /\
  (found = false -> hash = zeroHash /\ Forall (walk_fails w) mempool).
Proof.
  induction mempool as [|h rest IH]; intros found hash err Hrun.
  - cbn in Hrun. injection Hrun as <- <- <-.
    split; [reflexivity|]. split; [discriminate|].
    intros _. split; [reflexivity|constructor].
  - cbn [getUnconfirmedTx_loop] in Hrun.
    destruct (verifyTxOnSubchain fuel w h) as [[|]| |] eqn:Hverify;
      cbn [outcome_bind] in Hrun; try discriminate.
    + injection Hrun as <- <- <-. split; [reflexivity|].
      split; [|discriminate]. intros _. exists [], rest.
      split; [reflexivity|]. split; [|constructor].
      exact (verifyTxOnSubchain_true w fuel h Hverify).
    + pose proof (verifyTxOnSubchain_false w fuel h Hverify) as Hoff.
      destruct (IH found hash err Hrun) as (Herr & Htrue & Hfalse).
      split; [exact Herr|]. split.
      * intros Hfound.
        destruct (Htrue Hfound) as (pre & post & -> & Hon & Hpre).
        exists (h :: pre), post. split; [reflexivity|].
        split; [exact Hon|]. now constructor.
      * intros Hfound. destruct (Hfalse Hfound) as [-> Hall].
        split; [reflexivity|]. now constructor.
Qed.

Lemma getUnconfirmedTx_loop_first (w : AttestClient) (pre : list Hash)
    hash post :
  Forall (walk_fails w) pre -> reaches_genesis w hash ->
  exists fuel, forall fuel', (fuel <= fuel')%nat ->
    getUnconfirmedTx_loop fuel' w (pre ++ hash :: post)
    = Returns (true, hash, None).
Proof.
  intros Hpre (n & g & Hwalk & Hg).
  induction Hpre as [|h pre (m & t & e & Hw & Hf & Hn) _ IH].
  - exists (S n). intros fuel' Hle. cbn [app getUnconfirmedTx_loop].
    rewrite (verifyTxOnSubchain_mono w (S n) hash true
               (verifyTxOnSubchain_reaches w n hash g Hwalk Hg) fuel' Hle).
    reflexivity.
  - destruct IH as (fuel & IH). exists (Nat.max fuel (S m)).
    intros fuel' Hle.
    change ((h :: pre) ++ hash :: post) with (h :: (pre ++ hash :: post)).
    cbn [getUnconfirmedTx_loop].
    rewrite (verifyTxOnSubchain_mono w (S m) h false
               (verifyTxOnSubchain_fails w m h t e Hw Hf Hn) fuel')
      by lia.
    cbn [outcome_bind]. apply IH. lia.
Qed.

(** X20.  [getUnconfirmedTx] passes an error of [GetRawMempool] on; it
    returns the first transaction of the mempool whose walk reaches the
    genesis txid when the walks before it end in a failed fetch; and a
    transaction it reports is in the mempool and walks back to genesis. *)
Theorem X20_getUnconfirmedTx (w : AttestClient) :
  (forall fuel err,
     getUnconfirmedTx fuel w (Err err) = Returns (false, zeroHash, Some err))
  /\
  (forall pre hash post,
     Forall (walk_fails w) pre -> reaches_genesis w hash ->
     exists fuel, forall fuel', (fuel <= fuel')%nat ->
       getUnconfirmedTx fuel' w (Ok (pre ++ hash :: post))
       = Returns (true, hash, None)) /\
  (forall fuel mempool hash err,
     getUnconfirmedTx fuel w (Ok mempool) = Returns (true, hash, err) ->
     err = None /\ hash ∈ mempool /\ reaches_genesis w hash).
Proof.
  split; [reflexivity|]. split.
  - intros pre hash post Hpre Hreach.
    exact (getUnconfirmedTx_loop_first w pre hash post Hpre Hreach).
  - intros fuel mempool hash err Hrun. cbn [getUnconfirmedTx] in Hrun.
    destruct (getUnconfirmedTx_loop_sound w fuel mempool _ _ _ Hrun)
      as (Herr & Htrue & _).
    destruct (Htrue eq_refl) as (pre & post & -> & Hreach & _).
    split; [exact Herr|]. split; [|exact Hreach].
    apply elem_of_app. right. left.
Qed.

End SearchProperties.

Lemma X18_findLastUnspent_sound_witness :
  let unspent := [example_stray_unspent; example_tip_unspent] in
  let w := example_client None unspent in
  @findLastUnspent ref_BtcLib 3 w = Returns (true, example_tip_unspent, None)
  /\
  exists listed,
    ListUnspent (MainClient w) = Ok listed /\
    exists pre post,
      listed = pre ++ example_tip_unspent :: post /\
      @on_subchain ref_BtcLib w example_tip_unspent /\
      Forall (@off_subchain ref_BtcLib w) pre.
Proof.
  intros unspent w.
  assert (Hrun : @findLastUnspent ref_BtcLib 3 w
                 = Returns (true, example_tip_unspent, None))
    by reflexivity.
  split; [exact Hrun|].
  exact (@X18_findLastUnspent_sound ref_BtcLib w 3 true example_tip_unspent
           None Hrun).
Defined.

(** ** Attestation client: signing *)

Lemma same_but_first_scriptSig_refl (tx : wire_MsgTx) :
  same_but_first_scriptSig tx tx.
Proof. unfold same_but_first_scriptSig. auto 10. Qed.

Section SigningResults.
Context `{crypto : Crypto}.

Lemma with_scriptSig_same (tx : wire_MsgTx) txin0 ins scriptSig :
  TxIn tx = txin0 :: ins ->
  same_but_first_scriptSig (with_scriptSig tx txin0 ins scriptSig) tx.
Proof.
  intros Hin. unfold same_but_first_scriptSig, with_scriptSig, set_TxIn.
  cbn. rewrite Hin. cbn. auto 10.
Qed.

(** The combination step returns a transaction, never an error, and
    changes at most the scriptSig of the first input. *)
Lemma combine_sigs_frame (w : AttestClient) (signedMsgTx : wire_MsgTx)
    (redeemScript : string) (sigs : list Sig) r :
  combine_sigs w signedMsgTx redeemScript sigs = Returns r ->
  exists tx, r = (Some tx, None) /\ same_but_first_scriptSig tx signedMsgTx.
Proof.
  unfold combine_sigs. intros Hrun.
  destruct (negb _).
  2: { injection Hrun as <-. eexists. split; [reflexivity|].
       apply same_but_first_scriptSig_refl. }
  destruct (TxIn signedMsgTx) as [|txin0 ins] eqn:Hin; [discriminate|].
  destruct (ParseScriptSig _) as [mySigs script].
  destruct (_ && _).
  - destruct (slice_upto _ _) as [chosen| |]; try discriminate.
    cbn [outcome_bind] in Hrun. injection Hrun as <-.
    eexists. split; [reflexivity|].
    exact (with_scriptSig_same signedMsgTx txin0 ins _ Hin).
  - destruct (_ <=? _).
    + destruct (list_upto _ _) as [chosen| |]; try discriminate.
      cbn [outcome_bind] in Hrun. injection Hrun as <-.
      eexists. split; [reflexivity|].
      exact (with_scriptSig_same signedMsgTx txin0 ins _ Hin).
    + injection Hrun as <-. eexists. split; [reflexivity|].
      apply same_but_first_scriptSig_refl.
Qed.

(** X21.  A client without wallet key, on a transaction whose first input
    carries no usable signature, with a redeem script: with at least
    [numOfSigs] peer signatures the scriptSig is built from the first
    [numOfSigs] of them and the decoded redeem script; with fewer the
    transaction is returned as it is, without error. *)
Theorem X21_signAttestation_peers_only (w : AttestClient)
    (msgtx : wire_MsgTx) (sigs : list Sig) (hash : Hash)
    (redeemScript : string) txin0 ins mySigs script :
  WalletPriv w = None ->
  GetScriptFromHash w hash = Returns redeemScript ->
  redeemScript <> ""%string ->
  TxIn msgtx = txin0 :: ins ->
  ParseScriptSig (SignatureScript txin0) = (mySigs, script) ->
  has_local_sigs mySigs script redeemScript = false ->
  0 <= numOfSigs w ->
  (numOfSigs w <= Z.of_nat (length sigs) ->
   signAttestation w msgtx sigs hash
   = Returns
       (Some (with_scriptSig msgtx txin0 ins
                (CreateScriptSig (take (Z.to_nat (numOfSigs w)) sigs)
                   (hex_DecodeString redeemScript))),
        None)) /\
  (Z.of_nat (length sigs) < numOfSigs w ->
   signAttestation w msgtx sigs hash = Returns (Some msgtx, None)).
Proof.
  intros Hpriv Hscript Hrs Hin Hparse Hlocal Hm.
  rewrite (signAttestation_not_signer w msgtx sigs hash redeemScript
             Hpriv Hscript).
  split; intros Hn.
  - apply (combine_sigs_peers w msgtx redeemScript sigs txin0 ins mySigs
             script Hrs Hin Hparse Hlocal). lia.
  - exact (combine_sigs_too_few_peers w msgtx redeemScript sigs txin0 ins
             mySigs script Hin Hparse Hlocal Hn).
Qed.

(** X22.  A signing client whose signed transaction carries its signatures
    and the redeem script, with at least [numOfSigs] signatures in all: the
    scriptSig is built from the first [numOfSigs] of its own signatures
    followed by the peers'; when its own signatures suffice the peers'
    signatures play no part. *)
Theorem X22_signAttestation_local_first (w : AttestClient)
    (msgtx signedMsgTx : wire_MsgTx) (sigs : list Sig) (hash : Hash)
    (key : WIF) (redeemScript : string) txin0 ins mySigs script :
  WalletPriv w = Some key ->
  SignTransaction w hash msgtx
  = Returns (Some signedMsgTx, redeemScript, None) ->
  redeemScript <> ""%string ->
  TxIn signedMsgTx = txin0 :: ins ->
  ParseScriptSig (SignatureScript txin0) = (mySigs, script) ->
  has_local_sigs mySigs script redeemScript = true ->
  0 <= numOfSigs w <= Z.of_nat (length (elems mySigs ++ sigs)) ->
  signAttestation w msgtx sigs hash
  = Returns
      (Some (with_scriptSig signedMsgTx txin0 ins
               (CreateScriptSig
                  (take (Z.to_nat (numOfSigs w)) (elems mySigs ++ sigs))
                  script)),
       None) /\
  (numOfSigs w <= Z.of_nat (length (elems mySigs)) ->
   take (Z.to_nat (numOfSigs w)) (elems mySigs ++ sigs)
   = take (Z.to_nat (numOfSigs w)) (elems mySigs)).
Proof.
  intros Hpriv Hsign Hrs Hin Hparse Hlocal Hm.
  rewrite (signAttestation_signer w msgtx sigs hash key _ Hpriv Hsign).
  split.
  - exact (combine_sigs_local w signedMsgTx redeemScript sigs txin0 ins
             mySigs script Hrs Hin Hparse Hlocal Hm).
  - intros Hown. apply take_app_le. lia.
Qed.

(** X23.  For a signing client an error of [SignTransaction] is returned as
    it is, with no transaction; and without redeem script (a single key)
    the transaction signed by the wallet is returned as it is, whatever
    signatures the peers sent. *)
Theorem X23_signAttestation_sign_result (w : AttestClient)
    (msgtx : wire_MsgTx) (sigs : list Sig) (hash : Hash) (key : WIF) :
  WalletPriv w = Some key ->
  (forall signedMsgTx redeemScript errSign,
     SignTransaction w hash msgtx
     = Returns (signedMsgTx, redeemScript, Some errSign) ->
     signAttestation w msgtx sigs hash = Returns (None, Some errSign)) /\
  (forall signedMsgTx,
     SignTransaction w hash msgtx
     = Returns (Some signedMsgTx, ""%string, None) ->
     signAttestation w msgtx sigs hash = Returns (Some signedMsgTx, None)).
Proof.
  intros Hpriv. split.
  - intros signedMsgTx redeemScript errSign Hsign.
    rewrite (signAttestation_signer w msgtx sigs hash key _ Hpriv Hsign).
    now destruct signedMsgTx.
  - intros signedMsgTx Hsign.
    rewrite (signAttestation_signer w msgtx sigs hash key _ Hpriv Hsign).
    reflexivity.
Qed.

(** X24.  Whenever [signAttestation] returns a transaction, that
    transaction differs from the one the signatures were combined on -- the
    argument for a client without wallet key, the wallet's signed
    transaction for a signing client -- at most in the scriptSig of the
    first input: outputs, outpoints, sequences, the other inputs, version
    and lock time are the same.  A client without wallet key never returns
    an error. *)
Theorem X24_signAttestation_frame (w : AttestClient) (msgtx : wire_MsgTx)
    (sigs : list Sig) (hash : Hash) r :
  signAttestation w msgtx sigs hash = Returns r ->
  (WalletPriv w = None ->
   exists tx, r = (Some tx, None) /\ same_but_first_scriptSig tx msgtx) /\
  (forall tx, r = (Some tx, None) -> WalletPriv w <> None ->
   exists signedMsgTx redeemScript,
     SignTransaction w hash msgtx
     = Returns (Some signedMsgTx, redeemScript, None) /\
     same_but_first_scriptSig tx signedMsgTx).
Proof.
  unfold signAttestation. intros Hrun.
  destruct (GetScriptFromHash w hash) as [rs| |]; try discriminate.
  cbn [outcome_bind] in Hrun.
  destruct (WalletPriv w) as [key|].
  - split; [discriminate|]. intros tx -> _.
    destruct (SignTransaction w hash msgtx) as [[[stx rs'] [e|]]| |];
      try discriminate; cbn [outcome_bind] in Hrun.
    { destruct stx; discriminate. }
    destruct stx as [stx|]; [|discriminate].
    exists stx, rs'. split; [reflexivity|].
    destruct (combine_sigs_frame w stx rs' sigs _ Hrun) as (tx' & E & Hsame).
    injection E as <-. exact Hsame.
  - split; [|intros tx _ Hne; contradiction].
    intros _. exact (combine_sigs_frame w msgtx rs sigs r Hrun).
Qed.

(** X25.  When [SignTransaction] returns a signed transaction, the script it
    returns is that of [GetScriptFromHash] and the transaction is the
    node's answer to signing with the key of [GetKeyFromHash], the previous
    output being described as output 0 of the fetched previous transaction
    with its script.  When it returns an error, that is the error of the
    fetch or of the signing, with no transaction and an empty script. *)
Theorem X25_SignTransaction_result (w : AttestClient) (hash : Hash)
    (msgTx : wire_MsgTx) (signed : option wire_MsgTx) (script : string)
    (err : option error) :
  SignTransaction w hash msgTx = Returns (signed, script, err) ->
  exists key redeemScript txin0 ins,
    GetKeyFromHash w hash = Returns key /\
    GetScriptFromHash w hash = Returns redeemScript /\
    TxIn msgTx = txin0 :: ins /\
    let prevTxId := OutPoint_Hash (PreviousOutPoint txin0) in
    match err with
    | Some e =>
        signed = None /\ script = ""%string /\
        (GetRawTransaction (MainClient w) prevTxId = Err e \/
         exists prevTx prevOut0 outs,
           GetRawTransaction (MainClient w) prevTxId = Ok prevTx /\
           TxOut prevTx = prevOut0 :: outs /\
           SignRawTransaction3 (MainClient w) msgTx
             [mkRawTxInput (Hash_String prevTxId) 0
                (hex_EncodeToString (PkScript prevOut0)) redeemScript]
             [WIF_String key] = Err e)
    | None =>
        script = redeemScript /\
        exists signedMsgTx prevTx prevOut0 outs complete,
          signed = Some signedMsgTx /\
          GetRawTransaction (MainClient w) prevTxId = Ok prevTx /\
          TxOut prevTx = prevOut0 :: outs /\
          SignRawTransaction3 (MainClient w) msgTx
            [mkRawTxInput (Hash_String prevTxId) 0
               (hex_EncodeToString (PkScript prevOut0)) redeemScript]
            [WIF_String key] = Ok (signedMsgTx, complete)
    end.
Proof.
  unfold SignTransaction. intros Hrun.
  destruct (GetKeyFromHash w hash) as [key| |]; try discriminate.
  cbn [outcome_bind] in Hrun.
  destruct (GetScriptFromHash w hash) as [rs| |]; try discriminate.
  cbn [outcome_bind] in Hrun.
  destruct (TxIn msgTx) as [|txin0 ins]; [discriminate|].
  exists key, rs, txin0, ins. repeat (split; [reflexivity|]). cbv zeta.
  destruct (GetRawTransaction _ _) as [prevTx|errRaw] eqn:Hraw.
  - destruct (TxOut prevTx) as [|prevOut0 outs] eqn:Hout; [discriminate|].
    destruct (SignRawTransaction3 _ _ _ _) as [[stx complete]|errSign]
      eqn:Hsign; injection Hrun as <- <- <-.
    + split; [reflexivity|].
      exists stx, prevTx, prevOut0, outs, complete. now repeat split.
    + split; [reflexivity|]. split; [reflexivity|]. right.
      exists prevTx, prevOut0, outs. now repeat split.
  - injection Hrun as <- <- <-. split; [reflexivity|].
    split; [reflexivity|]. now left.
Qed.

End SigningResults.

Lemma X21_signAttestation_peers_only_witness :
  let w := example_client None [] in
  let rs := ref_hex_EncodeToString (ref_redeem_script [5; 6; 7] 2) in
  @signAttestation ref_BtcLib ref_Crypto w example_unsigned
    [[x30; x09]; [x30; x0a]; [x30; x0b]] zeroHash
  = Returns
      (Some (@with_scriptSig example_unsigned
               (set_SignatureScript example_input []) []
               (ref_CreateScriptSig [[x30; x09]; [x30; x0a]]
                  (ref_hex_DecodeString rs))),
       None) /\
  @signAttestation ref_BtcLib ref_Crypto w example_unsigned [[x30; x09]]
    zeroHash
  = Returns (Some example_unsigned, None).
Proof.
  intros w rs.
  destruct (@X21_signAttestation_peers_only ref_BtcLib ref_Crypto w
              example_unsigned [[x30; x09]; [x30; x0a]; [x30; x0b]] zeroHash
              rs (set_SignatureScript example_input []) []
              (mkSlice [] []) [] eq_refl eq_refl ltac:(discriminate) eq_refl
              eq_refl eq_refl ltac:(cbn; lia)) as [Henough _].
  destruct (@X21_signAttestation_peers_only ref_BtcLib ref_Crypto w
              example_unsigned [[x30; x09]] zeroHash
              rs (set_SignatureScript example_input []) []
              (mkSlice [] []) [] eq_refl eq_refl ltac:(discriminate) eq_refl
              eq_refl eq_refl ltac:(cbn; lia)) as [_ Hfew].
  split; [apply Henough; cbn; lia|apply Hfew; cbn; lia].
Defined.

Lemma X22_signAttestation_local_first_witness :
  let w := example_client (Some 5) [] in
  let mySig := ref_signature "05" in
  let script := ref_redeem_script [5; 6; 7] 2 in
  let signedMsgTx :=
    set_TxIn example_unsigned
      [set_SignatureScript example_input (ref_CreateScriptSig [mySig] script)]
  in
  @signAttestation ref_BtcLib ref_Crypto w example_unsigned
    [[x30; x09]; [x30; x0a]] zeroHash
  = Returns
      (Some (@with_scriptSig signedMsgTx
               (set_SignatureScript example_input
                  (ref_CreateScriptSig [mySig] script)) []
               (ref_CreateScriptSig [mySig; [x30; x09]] script)),
       None).
Proof.
  intros w mySig script signedMsgTx.
  refine (proj1 (@X22_signAttestation_local_first ref_BtcLib ref_Crypto w
                   example_unsigned signedMsgTx [[x30; x09]; [x30; x0a]]
                   zeroHash 5
                   (ref_hex_EncodeToString script)
                   (set_SignatureScript example_input
                      (ref_CreateScriptSig [mySig] script)) []
                   (mkSlice [mySig] []) script
                   eq_refl eq_refl _ eq_refl eq_refl eq_refl _)).
  - discriminate.
  - cbn; lia.
Defined.

Lemma X23_signAttestation_sign_result_witness :
  let w := example_single_key_client in
  exists signedMsgTx,
    @SignTransaction ref_BtcLib ref_Crypto w zeroHash example_unsigned
    = Returns (Some signedMsgTx, ""%string, None) /\
    @signAttestation ref_BtcLib ref_Crypto w example_unsigned
      [[x30; x09]; [x30; x0a]] zeroHash
    = Returns (Some signedMsgTx, None).
Proof.
  intros w.
  destruct (@X23_signAttestation_sign_result ref_BtcLib ref_Crypto w
              example_unsigned [[x30; x09]; [x30; x0a]] zeroHash 5 eq_refl)
    as [_ Hsingle].
  eexists. split; [reflexivity|]. apply Hsingle. reflexivity.
Defined.

Lemma X24_signAttestation_frame_witness :
  let w := example_client None [] in
  exists tx,
    @signAttestation ref_BtcLib ref_Crypto w example_unsigned
      [[x30; x09]; [x30; x0a]] zeroHash = Returns (Some tx, None) /\
    same_but_first_scriptSig tx example_unsigned.
Proof.
  intros w.
  destruct (@X24_signAttestation_frame ref_BtcLib ref_Crypto w
              example_unsigned [[x30; x09]; [x30; x0a]] zeroHash _ eq_refl)
    as [Hnone _].
  destruct (Hnone eq_refl) as (tx & E & Hsame).
  exists tx. split; [|exact Hsame].
  vm_compute in E. injection E as <-. reflexivity.
Defined.

Lemma X25_SignTransaction_result_witness :
  let w := example_client (Some 5) [] in
  exists signed script,
    @SignTransaction ref_BtcLib ref_Crypto w zeroHash example_unsigned
    = Returns (Some signed, script, None) /\
    @GetScriptFromHash ref_BtcLib ref_Crypto w zeroHash = Returns script.
Proof.
  intros w. eexists. eexists.
  assert (Hrun : @SignTransaction ref_BtcLib ref_Crypto w zeroHash
                   example_unsigned
                 = Returns (Some _, _, None)) by reflexivity.
  split; [exact Hrun|].
  destruct (@X25_SignTransaction_result ref_BtcLib ref_Crypto w zeroHash
              example_unsigned _ _ _ Hrun)
    as (key & rs & txin0 & ins & _ & Hscript & _ & -> & _).
  exact Hscript.
Defined.

(** ** Record server: the leaves of a commitment *)





Lemma append_commitments_map
    (merkleCommitments : list CommitmentMerkleCommitment) :
  append_commitments merkleCommitments
  = map MerkleCommitment_Commitment merkleCommitments.
Proof.
  unfold append_commitments.
  enough (Hgen : forall acc,
            fold_left (fun hs c => hs ++ [MerkleCommitment_Commitment c])
              merkleCommitments acc
            = acc ++ map MerkleCommitment_Commitment merkleCommitments)
    by apply (Hgen []).
  induction merkleCommitments as [|c rest IH]; intros acc; cbn.
  - now rewrite app_nil_r.
  - rewrite IH, <- app_assoc. reflexivity.
Qed.

Section CommitmentLeaves.
Context `{models : Models}.



(** X27.  [GetAttestationCommitment]: an error never comes with a
    commitment; with stored leaves the result is built from their hashes in
    the stored order, whatever the optional flag; of the optional flags
    only the first counts, and none counts as [true]. *)
Theorem X27_GetAttestationCommitment_flag (db : DbAttestation)
    (attestationTxid : Hash) (confirmed : list bool) :
  (snd (GetAttestationCommitment db attestationTxid confirmed) <> None ->
   fst (GetAttestationCommitment db attestationTxid confirmed)
   = emptyCommitment) /\
  (forall merkleCommitments,
     getAttestationMerkleCommitments db attestationTxid
     = (merkleCommitments, None) ->
     merkleCommitments <> [] ->
     GetAttestationCommitment db attestationTxid confirmed
     = commitment_of_hashes
         (map MerkleCommitment_Commitment merkleCommitments)) /\
  GetAttestationCommitment db attestationTxid confirmed
  = GetAttestationCommitment db attestationTxid [hd true confirmed].
Proof.
  unfold GetAttestationCommitment, commitment_of_hashes.
  destruct (getAttestationMerkleCommitments db attestationTxid)
    as [mcs [e|]].
  - split; [reflexivity|]. split; [intros ? [=]|].
    now destruct confirmed.
  - split; [|split].
    + destruct (_ && _); [reflexivity|].
      destruct (NewCommitment _); [intros []|]; reflexivity.
    + intros ? [= <-] Hne. rewrite append_commitments_map.
      destruct mcs; [contradiction|]. reflexivity.
    + now destruct confirmed.
Qed.


End CommitmentLeaves.



(** ** Record server: storing an attestation *)

Section UpdateProperties.
Context `{stored : StoredModels}.

(** X29.  [UpdateLatestAttestation] against a record store of which the
    calls are logged: the calls it makes are a non-empty prefix of
    [saveAttestation], [saveMerkleCommitments], [saveMerkleProofs] and, for
    a confirmed attestation only, [saveAttestationInfo], in this order; the
    attestation is saved before its commitment is asked for; every call but
    the last one made has succeeded; it returns no error exactly when all
    the calls were made and none failed; and an error returned is that of
    the last call made or that of the missing commitment. *)
Theorem X29_UpdateLatestAttestation_calls
    (fails : list DbCall -> DbCall -> option error)
    (attestation : models_Attestation) (log : list DbCall) :
  exists calls last_call,
    fst (UpdateLatestAttestation (logging_store fails) attestation log)
    = log ++ calls /\
    calls `prefix_of` update_calls attestation /\
    head calls = Some (CallSaveAttestation attestation) /\
    last calls = Some last_call /\
    (forall (i : nat) call,
       calls !! i = Some call -> (S i < length calls)%nat ->
       fails (log ++ take i calls) call = None) /\
    (snd (UpdateLatestAttestation (logging_store fails) attestation log)
     = None <->
     calls = update_calls attestation /\
     (exists commitment, Attestation_Commitment attestation = Ok commitment)
     /\ fails (log ++ take (pred (length calls)) calls) last_call = None) /\
    (forall err,
       snd (UpdateLatestAttestation (logging_store fails) attestation log)
       = Some err ->
       fails (log ++ take (pred (length calls)) calls) last_call = Some err
       \/ (fails (log ++ take (pred (length calls)) calls) last_call = None
           /\ Attestation_Commitment attestation = Err err)).
Proof.
  unfold UpdateLatestAttestation, updateAttestationCommitment, update_calls.
  cbn [logging_store saveAttestation saveMerkleCommitments saveMerkleProofs
       saveAttestationInfo]. unfold logged.
  set (c1 := CallSaveAttestation attestation).
  destruct (fails log c1) as [e1|] eqn:F1.
  { exists [c1], c1. cbn [fst snd head last length pred take].
    rewrite app_nil_r, F1.
    split; [reflexivity|]. split; [eexists; reflexivity|].
    split; [reflexivity|]. split; [reflexivity|].
    split; [intros i call _ Hi; cbn in Hi; lia|].
    split; [split; [discriminate|intros (_ & _ & [=])]|].
    intros err [= <-]. now left. }
  destruct (Attestation_Commitment attestation) as [commitment|eC] eqn:EC.
  2: { exists [c1], c1. cbn [fst snd head last length pred take].
       rewrite app_nil_r, F1.
       split; [reflexivity|]. split; [reflexivity|].
       split; [reflexivity|]. split; [reflexivity|].
       split; [intros i call _ Hi; cbn in Hi; lia|].
       split; [split; [discriminate|intros (_ & (c & [=]) & _)]|].
       intros err [= <-]. now right. }
  set (c2 := CallSaveMerkleCommitments (GetMerkleCommitments commitment)).
  set (c3 := CallSaveMerkleProofs (GetMerkleProofs commitment)).
  set (c4 := CallSaveAttestationInfo (Attestation_Info attestation)).
  assert (Hsnoc : forall (l : list DbCall) a b, (l ++ [a]) ++ [b] = l ++ [a; b])
    by (intros; now rewrite <- app_assoc).
  assert (Hsnoc3 : forall (l : list DbCall) a b c,
            (l ++ [a; b]) ++ [c] = l ++ [a; b; c])
    by (intros; now rewrite <- app_assoc).
  assert (Hsnoc4 : forall (l : list DbCall) a b c d,
            (l ++ [a; b; c]) ++ [d] = l ++ [a; b; c; d])
    by (intros; now rewrite <- app_assoc).
  destruct (fails (log ++ [c1]) c2) as [e2|] eqn:F2.
  { exists [c1; c2], c2. cbn [fst snd head last length pred take].
    rewrite Hsnoc, F2.
    split; [reflexivity|]. split; [eexists; reflexivity|].
    split; [reflexivity|]. split; [reflexivity|].
    split.
    { intros [|[|i]] call Hc Hi; cbn in Hc, Hi; try lia.
      injection Hc as <-. cbn [take]. now rewrite app_nil_r. }
    split; [split; [discriminate|intros (_ & _ & [=])]|].
    intros err [= <-]. now left. }
  rewrite Hsnoc.
  destruct (fails (log ++ [c1; c2]) c3) as [e3|] eqn:F3.
  { exists [c1; c2; c3], c3. cbn [fst snd head last length pred take].
    rewrite Hsnoc3, F3.
    split; [reflexivity|]. split; [eexists; reflexivity|].
    split; [reflexivity|]. split; [reflexivity|].
    split.
    { intros [|[|[|i]]] call Hc Hi; cbn in Hc, Hi; try lia;
        injection Hc as <-; cbn [take]; [now rewrite app_nil_r|exact F2]. }
    split; [split; [discriminate|intros (_ & _ & [=])]|].
    intros err [= <-]. now left. }
  rewrite Hsnoc3.
  destruct (Attestation_Confirmed attestation) eqn:Hconf.
  - destruct (fails (log ++ [c1; c2; c3]) c4) as [e4|] eqn:F4.
    + exists [c1; c2; c3; c4], c4. cbn [fst snd head last length pred take].
      rewrite Hsnoc4, F4.
      split; [reflexivity|]. split; [reflexivity|].
      split; [reflexivity|]. split; [reflexivity|].
      split.
      { intros [|[|[|[|i]]]] call Hc Hi; cbn in Hc, Hi; try lia;
          injection Hc as <-; cbn [take];
          [now rewrite app_nil_r|exact F2|exact F3]. }
      split; [split; [discriminate|intros (_ & _ & [=])]|].
      intros err [= <-]. now left.
    + exists [c1; c2; c3; c4], c4. cbn [fst snd head last length pred take].
      rewrite Hsnoc4, F4.
      split; [reflexivity|]. split; [reflexivity|].
      split; [reflexivity|]. split; [reflexivity|].
      split.
      { intros [|[|[|[|i]]]] call Hc Hi; cbn in Hc, Hi; try lia;
          injection Hc as <-; cbn [take];
          [now rewrite app_nil_r|exact F2|exact F3]. }
      split; [|discriminate].
      split; [|reflexivity]. intros _.
      split; [reflexivity|]. split; [now exists commitment|reflexivity].
  - exists [c1; c2; c3], c3. cbn [fst snd head last length pred take].
    rewrite F3.
    split; [reflexivity|]. split; [reflexivity|].
    split; [reflexivity|]. split; [reflexivity|].
    split.
    { intros [|[|[|i]]] call Hc Hi; cbn in Hc, Hi; try lia;
        injection Hc as <-; cbn [take]; [now rewrite app_nil_r|exact F2]. }
    split; [|discriminate].
    split; [|reflexivity]. intros _.
    split; [reflexivity|]. split; [now exists commitment|reflexivity].
Qed.

End UpdateProperties.

(** ** Configuration parser *)

(** X30.  [getValue] succeeds exactly on the keys that hold a string, and
    then returns that string; its error is always "config value not found"
    and comes with the empty string; [tryGetValue] returns the string of
    [getValue], so that it gives the empty string for a missing key, for a
    value that is no string and for the empty string alike.  [getCfg]
    reports a file that does not decode like a missing name, and every
    lookup in the configuration it returns with an error fails. *)
Theorem X30_config_lookups (conf : ClientCfg) (key : string)
    (json_Decode : list byte -> result (gmap string ClientCfg))
    (name : string) (file : list byte) :
  tryGetValue conf key = fst (getValue conf key) /\
  (snd (getValue conf key) = None <->
   conf !! key = Some (JsonString (fst (getValue conf key)))) /\
  (snd (getValue conf key) <> None ->
   getValue conf key = (""%string, Some ErrorConfigValueNotFound)) /\
  (snd (getCfg json_Decode name file) = None <->
   exists j, json_Decode file = Ok j /\
             j !! name = Some (fst (getCfg json_Decode name file))) /\
  (snd (getCfg json_Decode name file) <> None ->
   snd (getCfg json_Decode name file) = Some ErroConfigNameNotFound /\
   getValue (fst (getCfg json_Decode name file)) key
   = (""%string, Some ErrorConfigValueNotFound) /\
   tryGetValue (fst (getCfg json_Decode name file)) key = ""%string).
Proof.
  unfold getValue, tryGetValue, getCfg.
  split; [|split; [|split; [|split]]].
  - destruct (conf !! key) as [[]|]; reflexivity.
  - destruct (conf !! key) as [[]|]; cbn [fst snd];
      split; (reflexivity || discriminate).
  - destruct (conf !! key) as [[]|]; cbn [fst snd]; intros Herr;
      (reflexivity || contradiction).
  - destruct (json_Decode file) as [j|e]; cbn [fst snd].
    + destruct (j !! name) as [val|] eqn:Hname; cbn [fst snd].
      * split; [intros _; now exists j|reflexivity].
      * split; [discriminate|]. intros (j' & [= <-] & Hj).
        rewrite Hname in Hj. discriminate.
    + split; [discriminate|]. intros (j & [=] & _).
  - destruct (json_Decode file) as [j|e]; cbn [fst snd].
    + destruct (j !! name) as [val|]; cbn [fst snd]; intros Herr;
        [contradiction|].
      unfold ClientCfg. rewrite lookup_empty. now repeat split.
    + intros _. unfold ClientCfg. rewrite lookup_empty. now repeat split.
Qed.
